(** * stellar/deploy-contract.js: deployment and initialization of the
      Axelar Soroban contracts

    A shallow embedding of [getInitializeArgs], [postDeployGateway],
    [serializeValue], [processCommand] and [mainProcessor], and the
    properties the specification states about them.

    Conventions of the embedding.
    - A JavaScript string is a [string]: the bytes of its UTF-8 encoding.
    - A call that can throw (or an awaited promise that can reject) returns a
      [result]; the exceptions are the values of [exn].
    - An object is the list of its own properties in the order the language
      enumerates them: array indices first, in ascending order, then the
      other keys as they were created.
    - The chain state is a mutable object shared by the orchestrator and its
      collaborators: it is threaded through the monad [M], together with the
      prototype of its registry and the log of calls made so far.
    - The collaborators that live outside this file (the Stellar SDK checks,
      keccak256, [./utils], [../common], [./type-utils], the soroban binary)
      are the fields of [Externals]. *)

From Stdlib Require Import ZArith String Ascii List Floats Uint63 DecimalString DecimalZ.
From Stdlib.Strings Require Import Byte.
From stdpp Require Import base option list strings gmap.

Open Scope string_scope.
Open Scope list_scope.
Set Warnings "-register-all".

(** ** Exceptions and results *)

Inductive exn : Type :=
  | MissingDependency                     (* Error('Missing axelar_auth_verifier contract address') *)
  | UnknownContract (contractName : string) (* Error(`Unknown contract: ${contractName}`) *)
  | DeploymentFailed                      (* execSync threw: non-zero exit or I/O failure *)
  | RemoteCallFailed                      (* broadcast rejected *)
  | CollaboratorFailed (callee : string)  (* another collaborator threw *)
  | TypeError (msg : string)              (* raised by the JavaScript runtime *)
  | InvalidAddress (addr : string)        (* SDK: not a strkey address *)
  | InvalidContractId (addr : string)     (* SDK: new Contract(addr) rejected addr *)
  | InvalidHex (s : string).              (* ethers: arrayify rejected s *)

(** The message of the two errors this file constructs itself. *)
Definition message (e : exn) : option string :=
  match e with
  | MissingDependency => Some "Missing axelar_auth_verifier contract address"
  | UnknownContract contractName => Some ("Unknown contract: " +:+ contractName)
  | _ => None
  end.

Inductive result (A : Type) : Type :=
  | Ok (a : A)
  | Throw (e : exn).
Arguments Ok {A} a.
Arguments Throw {A} e.

Definition rbind {A B} (r : result A) (k : A → result B) : result B :=
  match r with
  | Ok a => k a
  | Throw e => Throw e
  end.

Definition rmap {A B} (f : A → B) (r : result A) : result B :=
  rbind r (λ a, Ok (f a)).

Notation "'try' x := r 'in' k" := (rbind r (λ x, k))
  (at level 10, x name, r at level 100, k at level 200).

(** ** JavaScript values *)

(** The values [serializeValue] can meet: what [scValToNative] returns and
    what JSON holds.  An object is the list of its own enumerable
    string-keyed properties, in the order [Object.entries] reports them. *)
Inductive value : Type :=
  | VUndefined
  | VNull
  | VBoolean (b : bool)
  | VNumber (x : float)
  | VString (s : string)
  | VBigInt (z : Z)
  | VUint8Array (bs : list byte)          (* Uint8Array, and Buffer, its subclass *)
  | VArray (xs : list value)
  | VObject (props : list (string * value)).

(** Truthiness of the optional strings read from the options and from the
    registry: [undefined] and the empty string are falsy. *)
Definition truthy (o : option string) : bool :=
  match o with
  | Some s => negb (String.eqb s "")
  | None => false
  end.

(** *** The order of own properties *)

(** An array index: the canonical decimal text of an integer from 0 to
    2^32 - 2 (no sign, no leading zero). *)
Definition digit_value (c : ascii) : option N :=
  let n := N_of_ascii c in
  if ((48 <=? n) && (n <=? 57))%N then Some (n - 48)%N else None.

Fixpoint decimal_value (s : string) (acc : N) : option N :=
  match s with
  | "" => Some acc
  | String c rest => d ← digit_value c; decimal_value rest (10 * acc + d)%N
  end.

Definition array_index (key : string) : option N :=
  match key with
  | "" => None
  | String "0" (String _ _) => None
  | _ => n ← decimal_value key 0; if (n <=? 4294967294)%N then Some n else None
  end.

Example array_index_canonical :
  array_index "0" = Some 0%N ∧ array_index "10" = Some 10%N
  ∧ array_index "4294967294" = Some 4294967294%N ∧ array_index "4294967295" = None
  ∧ array_index "007" = None ∧ array_index "1e3" = None ∧ array_index "-1" = None
  ∧ array_index "" = None ∧ array_index "owner" = None.
Proof. by split_and!. Qed.

(** [OrdinaryOwnPropertyKeys]: the array indices in ascending order, then
    the other strings in the order they were created.  [precedes k k'] tells
    whether a property [k] that is there stays before a new property [k']. *)
Definition precedes (k k' : string) : bool :=
  match array_index k, array_index k' with
  | Some n, Some m => (n <=? m)%N
  | Some _, None => true
  | None, Some _ => false
  | None, None => true
  end.

(** The keys of an object stand in that order: every key precedes the
    keys after it. *)
Fixpoint enumeration_order (keys : list string) : bool :=
  match keys with
  | [] => true
  | k :: rest => forallb (precedes k) rest && enumeration_order rest
  end.

(** *** Property assignment *)

Definition hasOwnProperty (props : list (string * value)) (key : string) : bool :=
  existsb (λ kv, String.eqb kv.1 key) props.

(** A property that is there keeps its place and takes the new value. *)
Fixpoint overwrite (props : list (string * value)) (key : string) (v : value)
  : list (string * value) :=
  match props with
  | [] => []
  | (k, w) :: rest =>
      if String.eqb k key then (k, v) :: rest else (k, w) :: overwrite rest key v
  end.

(** A new property is enumerated after the properties that precede it. *)
Fixpoint place (props : list (string * value)) (key : string) (v : value)
  : list (string * value) :=
  match props with
  | [] => [(key, v)]
  | (k, w) :: rest =>
      if precedes k key then (k, w) :: place rest key v else (key, v) :: props
  end.

(** [CreateDataProperty] on an ordinary object. *)
Definition defineProperty (props : list (string * value)) (key : string) (v : value)
  : list (string * value) :=
  if hasOwnProperty props key then overwrite props key v else place props key v.

(** [acc[key] = v] on an object created by [{}].  Its prototype is
    [Object.prototype], whose accessor [__proto__] is found before any own
    property is created: the assignment then runs that setter, which may
    replace the prototype and never adds an own property. *)
Definition assignProperty (acc : list (string * value)) (key : string) (v : value)
  : list (string * value) :=
  if String.eqb key "__proto__" then acc else defineProperty acc key v.

(** [Object.fromEntries(entries)]: every entry becomes an own property. *)
Definition fromEntries (entries : list (string * value)) : list (string * value) :=
  fold_left (λ acc kv, defineProperty acc kv.1 kv.2) entries [].

Example fromEntries_order :
  fromEntries [("b", VBoolean true); ("10", VNull); ("a", VNull); ("9", VNull);
               ("b", VBoolean false); ("01", VNull); ("4294967295", VNull)]
  = [("9", VNull); ("10", VNull); ("b", VBoolean false); ("a", VNull); ("01", VNull);
     ("4294967295", VNull)].
Proof. reflexivity. Qed.

(** ** Bytes as text *)

Definition hex_digit (n : N) : ascii :=
  match n with
  | 0 => "0" | 1 => "1" | 2 => "2" | 3 => "3" | 4 => "4" | 5 => "5"
  | 6 => "6" | 7 => "7" | 8 => "8" | 9 => "9" | 10 => "a" | 11 => "b"
  | 12 => "c" | 13 => "d" | 14 => "e" | _ => "f"
  end%N%char.

Definition hex_of_byte (b : byte) : string :=
  let n := Byte.to_N b in
  String (hex_digit (n / 16)) (String (hex_digit (n mod 16)) "").

(** [Buffer.from(bytes).toString('hex')] *)
Fixpoint toString_hex (bs : list byte) : string :=
  match bs with
  | [] => ""
  | b :: rest => hex_of_byte b +:+ toString_hex rest
  end.

(** [BigInt.prototype.toString()]: decimal digits, a leading minus sign for
    negatives. *)
Definition BigInt_toString (z : Z) : string :=
  NilZero.string_of_int (Z.to_int z).

(** ** [serializeValue] *)

Definition null_entries : exn :=
  TypeError "Cannot convert undefined or null to object".

Fixpoint serializeValue (v : value) : result value :=
  match v with
  | VUint8Array bs => Ok (VString (toString_hex bs))
  | VArray xs =>
      rmap VArray
        ((fix map (l : list value) : result (list value) :=
            match l with
            | [] => Ok []
            | x :: rest =>
                try y := serializeValue x in
                try ys := map rest in
                Ok (y :: ys)
            end) xs)
  | VBigInt z => Ok (VString (BigInt_toString z))
  | VNull => Throw null_entries          (* typeof null === 'object' *)
  | VObject props =>
      rmap VObject
        ((fix reduce (l : list (string * value)) (acc : list (string * value))
            : result (list (string * value)) :=
            match l with
            | [] => Ok acc
            | (key, val) :: rest =>
                try w := serializeValue val in
                reduce rest (assignProperty acc key w)
            end) props [])
  | VUndefined | VBoolean _ | VNumber _ | VString _ => Ok v
  end.

Example serializeValue_nested :
  serializeValue
    (VObject [("nonce", VUint8Array [x00; xff; x1a]);
              ("weights", VArray [VBigInt 340282366920938463463374607431768211456; VBigInt (-7)]);
              ("inner", VObject [("ok", VBoolean true); ("n", VNumber 15)])])
  = Ok (VObject [("nonce", VString "00ff1a");
                 ("weights", VArray [VString "340282366920938463463374607431768211456"; VString "-7"]);
                 ("inner", VObject [("ok", VBoolean true); ("n", VNumber 15)])]).
Proof. reflexivity. Qed.

Example serializeValue_null_in_array :
  serializeValue (VArray [VString "a"; VNull]) = Throw null_entries.
Proof. reflexivity. Qed.

Example serializeValue_proto_key :
  serializeValue (VObject [("a", VBigInt 1); ("__proto__", VString "x")])
  = Ok (VObject [("a", VString "1")]).
Proof. reflexivity. Qed.

(** ** The Stellar SDK and ethers, as far as this file uses them *)

(** [xdr.ScVal], the typed contract values.  Map keys are symbols, which is
    what [nativeToScVal] builds from the keys of a JavaScript object. *)
Inductive ScVal : Type :=
  | scvVoid
  | scvBool (b : bool)
  | scvU32 (n : Z)
  | scvI32 (n : Z)
  | scvU64 (n : Z)
  | scvI64 (n : Z)
  | scvU128 (n : Z)
  | scvI128 (n : Z)
  | scvBytes (bs : list byte)
  | scvString (s : string)
  | scvSymbol (s : string)
  | scvAddress (strkey : string)
  | scvVec (xs : list ScVal)
  | scvMap (entries : list (string * ScVal)).

(** A JavaScript number holding the integer [n]. *)
Definition number_of_Z (n : Z) : float :=
  if (n <? 0)%Z then PrimFloat.opp (PrimFloat.of_uint63 (Uint63.of_Z (- n)))
  else PrimFloat.of_uint63 (Uint63.of_Z n).

(** [scValToNative]: 64-bit and wider integers come back as bigints, bytes
    as a Buffer, an address as its strkey string, void as [null], a map as
    [Object.fromEntries] of its entries. *)
Fixpoint scValToNative (scv : ScVal) : value :=
  match scv with
  | scvVoid => VNull
  | scvBool b => VBoolean b
  | scvU32 n | scvI32 n => VNumber (number_of_Z n)
  | scvU64 n | scvI64 n | scvU128 n | scvI128 n => VBigInt n
  | scvBytes bs => VUint8Array bs
  | scvString s | scvSymbol s => VString s
  | scvAddress strkey => VString strkey
  | scvVec xs => VArray (List.map scValToNative xs)
  | scvMap entries =>
      VObject (fromEntries (List.map (λ kv, (kv.1, scValToNative kv.2)) entries))
  end.

(** *** ethers: [arrayify] on a string, and [id] *)

Definition hex_value (c : ascii) : option N :=
  let n := N_of_ascii c in
  if ((48 <=? n) && (n <=? 57))%N then Some (n - 48)%N
  else if ((97 <=? n) && (n <=? 102))%N then Some (n - 87)%N
  else if ((65 <=? n) && (n <=? 70))%N then Some (n - 55)%N
  else None.

Definition byte_of_N (n : N) : byte := default x00 (Byte.of_N n).

Fixpoint parse_hex (s : string) : option (list byte) :=
  match s with
  | "" => Some []
  | String hi (String lo rest) =>
      h ← hex_value hi; l ← hex_value lo; bs ← parse_hex rest;
      Some (byte_of_N (16 * h + l) :: bs)
  | String _ "" => None
  end.

(** [arrayify(s)] for a string [s]: it must match [/^0x[0-9A-Fa-f]*$/] and
    hold an even number of digits. *)
Definition arrayify (s : string) : result (list byte) :=
  match s with
  | String "0" (String "x" digits) =>
      match parse_hex digits with
      | Some bs => Ok bs
      | None => Throw (InvalidHex s)
      end
  | _ => Throw (InvalidHex s)
  end.

(** [hexlify(bytes)] *)
Definition hexlify (bs : list byte) : string := "0x" +:+ toString_hex bs.

(** [toUtf8Bytes(text)]: a string is its UTF-8 encoding already. *)
Definition toUtf8Bytes (text : string) : list byte := list_byte_of_string text.

(** *** [String.prototype.trimEnd] *)

(** Does [s] consist of white space and line terminators only?  U+0009 to
    U+000D and U+0020 are one byte; U+00A0 is two; U+1680, U+2000 to U+200A,
    U+2028, U+2029, U+202F, U+205F, U+3000 and U+FEFF are three. *)
Fixpoint all_white (s : string) : bool :=
  match s with
  | "" => true
  | String c1 r1 =>
      let n1 := N_of_ascii c1 in
      if (((9 <=? n1) && (n1 <=? 13)) || (n1 =? 32))%N then all_white r1
      else
        match r1 with
        | "" => false
        | String c2 r2 =>
            let n2 := N_of_ascii c2 in
            if ((n1 =? 194) && (n2 =? 160))%N then all_white r2
            else
              match r2 with
              | "" => false
              | String c3 r3 =>
                  let n3 := N_of_ascii c3 in
                  if (((n1 =? 225) && (n2 =? 154) && (n3 =? 128))
                      || ((n1 =? 226) && (n2 =? 128)
                          && (((128 <=? n3) && (n3 <=? 138))
                              || (n3 =? 168) || (n3 =? 169) || (n3 =? 175)))
                      || ((n1 =? 226) && (n2 =? 129) && (n3 =? 159))
                      || ((n1 =? 227) && (n2 =? 128) && (n3 =? 128))
                      || ((n1 =? 239) && (n2 =? 187) && (n3 =? 191)))%N
                  then all_white r3
                  else false
              end
        end
  end.

Fixpoint trimEnd (s : string) : string :=
  match s with
  | "" => ""
  | String c rest => if all_white s then "" else String c (trimEnd rest)
  end.

Example trimEnd_stdout :
  trimEnd ("CDLZFC3SYJYDZT7K67VZ75HPJVIEUVNIXF47ZG2FB2RMQQVU2HHGCYSC" +:+ String "010" "")
  = "CDLZFC3SYJYDZT7K67VZ75HPJVIEUVNIXF47ZG2FB2RMQQVU2HHGCYSC".
Proof. reflexivity. Qed.

Example trimEnd_keeps_inner_space :
  trimEnd ("a b " +:+ String "013" (String "010" "")) = "a b".
Proof. reflexivity. Qed.

Example arrayify_hexlify : arrayify (hexlify [x00; xab; xff]) = Ok [x00; xab; xff].
Proof. reflexivity. Qed.

Example arrayify_odd : arrayify "0xabc" = Throw (InvalidHex "0xabc").
Proof. reflexivity. Qed.

(** ** The data of a run *)

(** The parsed command line (commander's [options] object). *)
Module Options.
Record t : Type := mk {
  env : string;
  privateKey : option string;
  verbose : bool;
  initialize : bool;                    (* a flag: true or undefined *)
  contractName : string;
  wasmPath : string;
  address : option string;
  estimateCost : bool;
  nonce : option string;
  domainSeparator : string;
}.
End Options.

(** The signing identity, a [Keypair]: [publicKey()] returns the strkey
    encoding of its key, which [Address.fromString] accepts. *)
Record Wallet : Type := { publicKey : string }.

(** A Contract Record.  A record read from the config file may lack any of
    its fields. *)
Record ContractRecord : Type := {
  address : option string;
  deployer : option string;
  initializeArgs : option (list (string * value));
}.

(** The chain state, [config.stellar], as the config file holds it.  The
    registry [contracts] is the finite map of its own properties: this file
    reads and writes it by key only, and JSON keeps nothing else of it. *)
Record Chain : Type := {
  rpc : string;
  networkType : string;
  contracts : option (gmap string ContractRecord);
}.

(** The parsed config file; this file only hands it on. *)
Definition Config : Type := value.

(** The argument of [weightedSignersToScVal].  The nonce is a [Uint8Array]
    or an array of 32 zeros; both are byte sequences here. *)
Record WeightedSigner : Type := { signer : string; weight : Z }.

Module WeightedSigners.
Record t : Type := mk {
  nonce : list byte;
  signers : list WeightedSigner;
  threshold : Z;
}.
End WeightedSigners.

(** What [contract.call(method, ...args)] builds. *)
Record Operation : Type := {
  contractId : string;
  method : string;
  args : list ScVal;
}.

(** The calls a run makes, in order: those to the collaborators, and the
    calls of [processCommand] to the builder and to a post-deploy hook.  A
    broadcast is logged with the chain state it was handed. *)
Inductive event : Type :=
  | EvPrintInfo (msg : string)
  | EvGetNetworkPassphrase (networkType : string)
  | EvGetWallet
  | EvExecSync (cmd : string)
  | EvGetInitializeArgs (contractName : string)
  | EvGetDomainSeparator
  | EvBroadcast (operation : Operation) (wallet : Wallet) (chain : Chain) (msg : string)
  | EvPostDeploy (contractName : string).

(** The collaborators.  [None] stands for a thrown exception or a rejected
    promise.  A collaborator that is handed the chain object is a function
    of its own properties. *)
Record Externals : Type := {
  (* ethers *)
  keccak256 : list byte → list byte;
  keccak256_length : ∀ bs, length (keccak256 bs) = 32%nat;
  (* @stellar/stellar-sdk: StrKey checks behind Address and Contract *)
  isValidAddress : string → bool;
  isValidContract : string → bool;
  (* ./type-utils *)
  weightedSignersToScVal : WeightedSigners.t → option ScVal;
  (* ./utils *)
  getNetworkPassphrase : string → option string;
  getWallet : Chain → Options.t → option Wallet;
  broadcast : Operation → Wallet → Chain → string → Options.t → bool;
  (* ../common *)
  getDomainSeparator : Config → Chain → Options.t → option string;
  (* child_process: the soroban binary, by command line; its stdout *)
  execSync : string → option string;
}.

(** ** The monad of a run: the shared chain state, the log, exceptions *)

(** [chain] is the shared object by its own properties.  [prototype] is
    the Contract Record a run has made the prototype of the registry
    [chain.contracts], if it has; the prototype is [Object.prototype]
    otherwise.  This is a fact of the heap, which the config file does not
    hold. *)
Record State : Type := {
  chain : Chain;
  log : list event;
  prototype : option ContractRecord;
}.

Definition M (A : Type) : Type := State → result A * State.

Definition ret {A} (a : A) : M A := λ s, (Ok a, s).

Definition throw {A} (e : exn) : M A := λ s, (Throw e, s).

Definition bind {A B} (m : M A) (k : A → M B) : M B :=
  λ s, match m s with
       | (Ok a, s') => k a s'
       | (Throw e, s') => (Throw e, s')
       end.

Notation "'let!' x := m 'in' k" := (bind m (λ x, k))
  (at level 10, x name, m at level 100, k at level 200).

Definition lift {A} (r : result A) : M A := λ s, (r, s).

Definition getChain : M Chain := λ s, (Ok (chain s), s).

Definition putChain (c : Chain) : M unit :=
  λ s, (Ok tt, {| chain := c; log := log s; prototype := prototype s |}).

Definition getPrototype : M (option ContractRecord) := λ s, (Ok (prototype s), s).

Definition putPrototype (p : option ContractRecord) : M unit :=
  λ s, (Ok tt, {| chain := chain s; log := log s; prototype := p |}).

Definition emit (ev : event) : M unit :=
  λ s, (Ok tt, {| chain := chain s; log := log s ++ [ev]; prototype := prototype s |}).

(** A logged call to a collaborator; [e] is the failure of the call. *)
Definition call {A} (ev : event) (e : exn) (r : option A) : M A :=
  let! _ := emit ev in
  match r with
  | Some a => ret a
  | None => throw e
  end.

(** [printInfo(msg, info)] writes to the console; the log keeps [msg]. *)
Definition printInfo (msg : string) : M unit := emit (EvPrintInfo msg).

(** The outcome of an awaited promise with no value of interest. *)
Definition settled (fulfilled : bool) : option unit :=
  if fulfilled then Some tt else None.

(** A run from a chain state as [loadConfig] returns it, with an empty
    log: the registry of a parsed file has the prototype every object
    starts with. *)
Definition start (c : Chain) : State := {| chain := c; log := []; prototype := None |}.

(** The own property [contractName] of the registry, if there is a
    registry and it has one: what the config file holds under that name.  It
    is also what [chain.contracts?.[contractName]] evaluates to for the
    names this file reads, [axelar_auth_verifier] and [axelar_gateway], which
    neither a Contract Record serving as prototype nor [Object.prototype]
    has as a property. *)
Definition record_of (c : Chain) (contractName : string) : option ContractRecord :=
  cs ← contracts c; cs !! contractName.

Definition setContracts (cs : gmap string ContractRecord) : M unit :=
  let! c := getChain in
  putChain {| rpc := rpc c; networkType := networkType c; contracts := Some cs |}.

(** [chain.contracts = {}] *)
Definition newRegistry : M unit :=
  let! _ := setContracts ∅ in
  putPrototype None.

Definition undefined_property (name : string) : exn :=
  TypeError ("Cannot read properties of undefined (reading '" +:+ name +:+ "')").

Definition cannot_set_property (name : string) : exn :=
  TypeError ("Cannot set properties of undefined (setting '" +:+ name +:+ "')").

(** [chain.contracts[name] = record] ([[Set]] on the registry).  An own
    property is created or overwritten, except under the name [__proto__]
    when the registry has no own property of that name: the assignment then
    reaches the accessor [__proto__] of [Object.prototype], whose setter
    makes [record] the prototype of the registry and creates no property.
    (A registry parsed from JSON can have [__proto__] as an own property,
    which the assignment then overwrites like any other.) *)
Definition assignRecord (name : string) (record : ContractRecord) : M unit :=
  let! c := getChain in
  match contracts c with
  | None => throw (cannot_set_property name)
  | Some registry =>
      if String.eqb name "__proto__" then
        match registry !! name with
        | Some _ => setContracts (<[name := record]> registry)
        | None => putPrototype (Some record)
        end
      else setContracts (<[name := record]> registry)
  end.

(** [chain.contracts[name].initializeArgs = serializedArgs]: a [[Get]] on
    the registry, then a [[Set]] on the record it answers.  Under the name
    [__proto__], without an own property of that name, the getter of
    [Object.prototype] answers the prototype of the registry; a property set
    on [Object.prototype] itself is outside the chain state.  Under any other
    name the answer is the own property: [assignRecord] has created it. *)
Definition assignInitializeArgs (name : string) (serializedArgs : list (string * value))
  : M unit :=
  let withArgs (r : ContractRecord) :=
    {| address := address r; deployer := deployer r;
       initializeArgs := Some serializedArgs |} in
  let! c := getChain in
  match contracts c with
  | None => throw (undefined_property name)
  | Some registry =>
      match registry !! name with
      | Some r => setContracts (<[name := withArgs r]> registry)
      | None =>
          if String.eqb name "__proto__" then
            let! p := getPrototype in
            match p with
            | Some r => putPrototype (Some (withArgs r))
            | None => ret tt
            end
          else throw (cannot_set_property "initializeArgs")
      end
  end.

(** ** The program *)

(** The double quote of the command line. *)
Definition dquote : string := String "034" "".

(** A template literal prints an absent value as [undefined]. *)
Definition interpolate (o : option string) : string := default "undefined" o.

(** The zero nonce, [Array(32).fill(0)]. *)
Definition zero_nonce : list byte := replicate 32 x00.

Section Program.

Variable ext : Externals.

(** [nativeToScVal(addr, { type: 'address' })] on a string from the
    registry: [new Address(addr).toScVal()].  On [undefined] the SDK
    answers [scvVoid]. *)
Definition nativeToScVal_address (addr : option string) : result ScVal :=
  match addr with
  | Some a => if isValidAddress ext a then Ok (scvAddress a) else Throw (InvalidAddress a)
  | None => Ok scvVoid
  end.

(** [nativeToScVal(n)] on a non-negative number with no type hint: the
    smallest unsigned integer type that holds it, u64 here. *)
Definition nativeToScVal_number (n : Z) : ScVal := scvU64 n.

(** [new Contract(addr)]: the strkey of a contract, or an exception. *)
Definition new_Contract (addr : option string) : result string :=
  match addr with
  | Some a => if isValidContract ext a then Ok a else Throw (InvalidContractId a)
  | None => Throw (InvalidContractId "undefined")
  end.

(** ethers [id(text)]: keccak256 of the UTF-8 bytes, as a hex string. *)
Definition id (text : string) : string := hexlify (keccak256 ext (toUtf8Bytes text)).

(** *** [getInitializeArgs]

    The [chain] argument of the source is the shared object held by the
    monad.  The result is the returned object literal, as its properties
    in order. *)
Definition getInitializeArgs (config : Config) (contractName : string)
    (wallet : Wallet) (options : Options.t) : M (list (string * ScVal)) :=
  let owner := scvAddress (publicKey wallet) in
  if String.eqb contractName "axelar_gateway" then
    let! c := getChain in
    let authAddress := r ← record_of c "axelar_auth_verifier"; address r in
    if negb (truthy authAddress) then throw MissingDependency
    else
      let! auth := lift (nativeToScVal_address authAddress) in
      ret [("authAddress", auth); ("owner", owner)]
  else if String.eqb contractName "axelar_auth_verifier" then
    let previousSignersRetention := nativeToScVal_number 15 in
    let! c := getChain in
    let! separator := call EvGetDomainSeparator (CollaboratorFailed "getDomainSeparator")
                           (getDomainSeparator ext config c options) in
    let! separatorBytes := lift (arrayify separator) in
    let domainSeparator := scvBytes separatorBytes in
    let minimumRotationDelay := nativeToScVal_number 0 in
    let! nonce :=
      if truthy (Options.nonce options)
      then lift (arrayify (id (default "" (Options.nonce options))))
      else ret zero_nonce in
    let! weightedSigners :=
      match weightedSignersToScVal ext
              (WeightedSigners.mk nonce
                 [{| signer := publicKey wallet; weight := 1 |}] 1) with
      | Some scv => ret scv
      | None => throw (CollaboratorFailed "weightedSignersToScVal")
      end in
    let initialSigners := scvVec [weightedSigners] in
    ret [("owner", owner);
         ("previousSignersRetention", previousSignersRetention);
         ("domainSeparator", domainSeparator);
         ("minimumRotationDelay", minimumRotationDelay);
         ("initialSigners", initialSigners)]
  else if String.eqb contractName "axelar_operators" then
    ret [("owner", owner)]
  else throw (UnknownContract contractName).

(** *** [postDeployGateway] *)

Definition postDeployGateway (wallet : Wallet) (options : Options.t) : M unit :=
  let! _ := printInfo "Transferring ownership of auth contract to the gateway" in
  let! c := getChain in
  match contracts c with
  | None => throw (undefined_property "axelar_auth_verifier")
  | Some cs =>
      match cs !! "axelar_auth_verifier" with
      | None => throw (undefined_property "address")
      | Some authRecord =>
          let! auth := lift (new_Contract (address authRecord)) in
          match cs !! "axelar_gateway" with
          | None => throw (undefined_property "address")
          | Some gatewayRecord =>
              let! gateway := lift (nativeToScVal_address (address gatewayRecord)) in
              let operation :=
                {| contractId := auth; method := "transfer_ownership"; args := [gateway] |} in
              call (EvBroadcast operation wallet c "Transferred ownership") RemoteCallFailed
                   (settled (broadcast ext operation wallet c "Transferred ownership" options))
          end
      end
  end.

(** [postDeployFunctions]: the hook registry.  The names it inherits
    from [Object.prototype] are no contract identifiers the builder
    accepts, so they never reach the lookup. *)
Definition postDeployFunctions (contractName : string)
  : option (Wallet → Options.t → M unit) :=
  if String.eqb contractName "axelar_gateway" then Some postDeployGateway else None.

(** *** [processCommand]

    As in the builder, the [chain] argument is the shared object held by
    the monad. *)

Definition deploy_command (options : Options.t) (c : Chain) (networkPassphrase : string)
  : string :=
  "soroban contract deploy --wasm " +:+ Options.wasmPath options
    +:+ " --source " +:+ interpolate (Options.privateKey options)
    +:+ " --rpc-url " +:+ rpc c
    +:+ " --network-passphrase " +:+ dquote +:+ networkPassphrase +:+ dquote.

(** [Object.fromEntries(Object.entries(initializeArgs).map(([key, value]) =>
      [key, serializeValue(scValToNative(value))]))] *)
Fixpoint serialize_entries (entries : list (string * ScVal))
  : result (list (string * value)) :=
  match entries with
  | [] => Ok []
  | (key, scv) :: rest =>
      try v := serializeValue (scValToNative scv) in
      try vs := serialize_entries rest in
      Ok ((key, v) :: vs)
  end.

Definition serializeArgs (initializeArgs : list (string * ScVal))
  : result (list (string * value)) :=
  rmap fromEntries (serialize_entries initializeArgs).

Definition processCommand (options : Options.t) (config : Config) : M unit :=
  let wasmPath := Options.wasmPath options in
  let contractName := Options.contractName options in
  let! c := getChain in
  let! networkPassphrase :=
    call (EvGetNetworkPassphrase (networkType c)) (CollaboratorFailed "getNetworkPassphrase")
         (getNetworkPassphrase ext (networkType c)) in
  let! wallet := call EvGetWallet (CollaboratorFailed "getWallet") (getWallet ext c options) in
  let! _ := match contracts c with
            | None => newRegistry
            | Some _ => ret tt
            end in
  let cmd := deploy_command options c networkPassphrase in
  let! _ := printInfo "Deploying contract" in
  let! contractAddress :=
    if negb (truthy (Options.address options)) then
      let! stdout := call (EvExecSync cmd) DeploymentFailed (execSync ext cmd) in
      let! _ := printInfo "Deployed contract successfully!" in
      ret (trimEnd stdout)
    else
      let! _ := printInfo "Using existing contract" in
      ret (default "" (Options.address options)) in
  let! _ := assignRecord contractName
              {| address := Some contractAddress;
                 deployer := Some (publicKey wallet);
                 initializeArgs := None |} in
  if negb (Options.initialize options) then ret tt
  else
    let! _ := emit (EvGetInitializeArgs contractName) in
    let! initializeArgs := getInitializeArgs config contractName wallet options in
    let! serializedArgs := lift (serializeArgs initializeArgs) in
    let! _ := assignInitializeArgs contractName serializedArgs in
    let! contract := lift (new_Contract (Some contractAddress)) in
    let operation :=
      {| contractId := contract; method := "initialize"; args := initializeArgs.*2 |} in
    let! _ := printInfo "Initializing contract with args" in
    let! c3 := getChain in
    let! _ := call (EvBroadcast operation wallet c3 "Initialized contract") RemoteCallFailed
                   (settled (broadcast ext operation wallet c3 "Initialized contract" options)) in
    match postDeployFunctions contractName with
    | Some hook =>
        let! _ := emit (EvPostDeploy contractName) in
        let! _ := hook wallet options in
        printInfo "Post deployment setup executed"
    | None => ret tt
    end.

End Program.

(** ** [mainProcessor] *)

(** The config object [loadConfig] returns: the parsed file, and its
    [stellar] entry, the chain state the processor is handed and mutates in
    place.  The file is taken to have a [stellar] entry. *)
Record LoadedConfig : Type := { document : Config; stellar : Chain }.

(** [loadConfig] and [saveConfig] of [../evm/utils]: the config file of an
    environment.  [None] and [false] stand for a thrown exception. *)
Record ConfigStore : Type := {
  loadConfig : string → option LoadedConfig;
  saveConfig : LoadedConfig → string → bool;
}.

(** What a call of [mainProcessor] leaves behind: how it ended, the state
    in memory once the processor has run, and the config it wrote.  The file
    is JSON: of the chain object it holds the own properties, which is what
    a [Chain] is. *)
Record Outcome : Type := {
  outcome : result unit;
  memory : option State;
  written : option LoadedConfig;
}.

Definition mainProcessor (store : ConfigStore) (options : Options.t)
    (processor : Options.t → Config → M unit) : Outcome :=
  match loadConfig store (Options.env options) with
  | None =>
      {| outcome := Throw (CollaboratorFailed "loadConfig"); memory := None; written := None |}
  | Some config =>
      match processor options (document config) (start (stellar config)) with
      | (Throw e, s) => {| outcome := Throw e; memory := Some s; written := None |}
      | (Ok _, s) =>
          let config' := {| document := document config; stellar := chain s |} in
          if saveConfig store config' (Options.env options)
          then {| outcome := Ok tt; memory := Some s; written := Some config' |}
          else {| outcome := Throw (CollaboratorFailed "saveConfig");
                  memory := Some s; written := None |}
      end
  end.

(** ** A concrete world, for running the program *)

Module Demo.

Definition wallet_key : string :=
  "GBZXN7PIRZGNMHGA7MUUUF4GWPY5AYPV6LY4UV2GL6VJGIQRXFDNMADI".
Definition gateway_id : string :=
  "CDLZFC3SYJYDZT7K67VZ75HPJVIEUVNIXF47ZG2FB2RMQQVU2HHGCYSC".
Definition auth_id : string :=
  "CCW67TSZV3SSS2HXMBQ5JFGCKJNXKZM7UQUWUZPUTHXSTZLEO7SJMI75".

Definition starts_with (c : ascii) (s : string) : bool :=
  match s with
  | String c' _ => Ascii.eqb c c'
  | "" => false
  end.

Definition looks_like_contract (s : string) : bool :=
  starts_with "C" s && (String.length s =? 56)%nat.

Definition looks_like_address (s : string) : bool :=
  (starts_with "G" s || starts_with "C" s) && (String.length s =? 56)%nat.

Definition signers_scval (ws : WeightedSigners.t) : option ScVal :=
  Some (scvMap
          [("nonce", scvBytes (WeightedSigners.nonce ws));
           ("signers",
            scvVec (List.map (λ s, scvMap [("signer", scvAddress (signer s));
                                           ("weight", scvU128 (weight s))])
                             (WeightedSigners.signers ws)));
           ("threshold", scvU128 (WeightedSigners.threshold ws))]).

Definition passphrase (networkType : string) : option string :=
  if String.eqb networkType "testnet" then Some "Test SDF Network ; September 2015"
  else if String.eqb networkType "local" then Some "Standalone Network ; February 2017"
  else None.

(** A stand-in for keccak256: the true digest of the empty input, and 32
    fixed bytes for any other. *)
Definition digest (bs : list byte) : list byte :=
  match bs with
  | [] => [xc5; xd2; x46; x01; x86; xf7; x23; x3c; x92; x7e; x7d; xb2; xdc; xc7; x03; xc0;
           xe5; x00; xb6; x53; xca; x82; x27; x3b; x7b; xfa; xd8; x04; x5d; x85; xa4; x70]
  | _ :: _ => replicate 32 x5a
  end.

Lemma digest_length bs : length (digest bs) = 32%nat.
Proof. by destruct bs. Qed.

Definition world : Externals := {|
  keccak256 := digest;
  keccak256_length := digest_length;
  isValidAddress := looks_like_address;
  isValidContract := looks_like_contract;
  weightedSignersToScVal := signers_scval;
  getNetworkPassphrase := passphrase;
  getWallet := λ _ _, Some {| publicKey := wallet_key |};
  broadcast := λ _ _ _ _ _, true;
  getDomainSeparator := λ _ _ _, Some (hexlify (replicate 32 x11));
  execSync := λ _, Some (gateway_id +:+ String "010" "");
|}.

(** The same world with a soroban binary that exits non-zero. *)
Definition world_deploy_fails : Externals := {|
  keccak256 := digest;
  keccak256_length := digest_length;
  isValidAddress := looks_like_address;
  isValidContract := looks_like_contract;
  weightedSignersToScVal := signers_scval;
  getNetworkPassphrase := passphrase;
  getWallet := λ _ _, Some {| publicKey := wallet_key |};
  broadcast := λ _ _ _ _ _, true;
  getDomainSeparator := λ _ _ _, Some (hexlify (replicate 32 x11));
  execSync := λ _, None;
|}.

(** The same world with a network that rejects every transaction. *)
Definition world_broadcast_fails : Externals := {|
  keccak256 := digest;
  keccak256_length := digest_length;
  isValidAddress := looks_like_address;
  isValidContract := looks_like_contract;
  weightedSignersToScVal := signers_scval;
  getNetworkPassphrase := passphrase;
  getWallet := λ _ _, Some {| publicKey := wallet_key |};
  broadcast := λ _ _ _ _ _, false;
  getDomainSeparator := λ _ _ _, Some (hexlify (replicate 32 x11));
  execSync := λ _, Some (gateway_id +:+ String "010" "");
|}.

Definition wallet : Wallet := {| publicKey := wallet_key |}.

Definition config : Config := VObject [].

Definition fresh_chain : Chain :=
  {| rpc := "https://soroban-testnet.stellar.org"; networkType := "testnet";
     contracts := None |}.

Definition chain_with_auth : Chain :=
  {| rpc := "https://soroban-testnet.stellar.org"; networkType := "testnet";
     contracts := Some {[ "axelar_auth_verifier" :=
                            {| address := Some auth_id; deployer := Some wallet_key;
                               initializeArgs := None |} ]} |}.

(** What the builder returns for the auth verifier in this world, by the
    nonce of the signer set. *)
Definition auth_args (nonce : list byte) : list (string * ScVal) :=
  [("owner", scvAddress wallet_key);
   ("previousSignersRetention", scvU64 15);
   ("domainSeparator", scvBytes (replicate 32 x11));
   ("minimumRotationDelay", scvU64 0);
   ("initialSigners",
    scvVec [scvMap [("nonce", scvBytes nonce);
                    ("signers", scvVec [scvMap [("signer", scvAddress wallet_key);
                                                ("weight", scvU128 1)]]);
                    ("threshold", scvU128 1)]])].

Definition options (contractName : string) (initialize : bool)
    (address nonce : option string) : Options.t :=
  Options.mk "testnet" (Some "SECRET") false initialize contractName
             "out/contract.wasm" address false nonce "offline".

End Demo.

(** ** The vocabulary of the specification *)

(** A property of an object, by key. *)
Fixpoint property {A} (key : string) (props : list (string * A)) : option A :=
  match props with
  | [] => None
  | (k, a) :: rest => if String.eqb k key then Some a else property key rest
  end.

(** The three identifiers the argument builder has a case for. *)
Definition supported_names : list string :=
  ["axelar_gateway"; "axelar_auth_verifier"; "axelar_operators"].

(** An identifier is supported when the builder can succeed on it. *)
Definition supported (contractName : string) : Prop :=
  ∃ ext config wallet options s args s',
    getInitializeArgs ext config contractName wallet options s = (Ok args, s').

Definition is_ExecSync (ev : event) : bool :=
  match ev with EvExecSync _ => true | _ => false end.

(** The events of argument building, of the remote calls and of the hook. *)
Definition is_initialization (ev : event) : bool :=
  match ev with
  | EvGetInitializeArgs _ | EvGetDomainSeparator | EvBroadcast _ _ _ _ | EvPostDeploy _ => true
  | _ => false
  end.

(** The address a run records: the [--address] option when it is truthy,
    else the trimmed stdout of the soroban binary, if it succeeded. *)
Definition recorded_address (ext : Externals) (options : Options.t) (c : Chain)
    (networkPassphrase : string) : option string :=
  if truthy (Options.address options) then Options.address options
  else trimEnd <$> execSync ext (deploy_command options c networkPassphrase).

(** *** What a computation adds to the log, and whether it writes the chain *)

(** Every event [m] logs satisfies [P]. *)
Definition emits {A} (P : event → Prop) (m : M A) : Prop :=
  ∀ s r s', m s = (r, s') → ∃ evs, log s' = log s ++ evs ∧ Forall P evs.

(** [m] leaves the chain state as it found it, the prototype of the
    registry included. *)
Definition readonly {A} (m : M A) : Prop :=
  ∀ s r s', m s = (r, s') → chain s' = chain s ∧ prototype s' = prototype s.

(** *** The serializer, in the words of the specification *)

(** The domain of §4.3: byte sequences, ordered sequences, large integers,
    composite records (an object has no two properties of one name, and
    lists them in the order of [Object.entries]) and the scalars string,
    boolean and finite number. *)
Fixpoint in_domain (v : value) : bool :=
  match v with
  | VUndefined | VNull => false
  | VBoolean _ | VString _ | VBigInt _ | VUint8Array _ => true
  | VNumber x => PrimFloat.is_finite x
  | VArray xs => forallb in_domain xs
  | VObject props =>
      bool_decide (NoDup props.*1) && enumeration_order props.*1
      && forallb (λ kv, in_domain kv.2) props
  end.

(** No record of [v] has a property named [__proto__]. *)
Fixpoint ordinary_keys (v : value) : bool :=
  match v with
  | VArray xs => forallb ordinary_keys xs
  | VObject props =>
      forallb (λ kv, negb (String.eqb kv.1 "__proto__") && ordinary_keys kv.2) props
  | _ => true
  end.

(** What JSON can hold. *)
Fixpoint json_safe (v : value) : bool :=
  match v with
  | VNull | VBoolean _ | VString _ => true
  | VNumber x => PrimFloat.is_finite x
  | VUndefined | VBigInt _ | VUint8Array _ => false
  | VArray xs => forallb json_safe xs
  | VObject props => forallb (λ kv, json_safe kv.2) props
  end.

Definition is_lower_hex (c : ascii) : bool :=
  let n := N_of_ascii c in
  (((48 <=? n) && (n <=? 57)) || ((97 <=? n) && (n <=? 102)))%N.

(** [s] is the lowercase hexadecimal text of [bs]: two digits a byte, from
    which the bytes are read back. *)
Definition lowercase_hex_of (bs : list byte) (s : string) : Prop :=
  forallb is_lower_hex (list_ascii_of_string s) = true ∧ parse_hex s = Some bs.

(** [s] is the decimal text of [z]: the string that reads back as [z] in
    canonical form (no leading zero, no sign on zero). *)
Definition decimal_of (z : Z) (s : string) : Prop :=
  NilZero.int_of_string s = Some (Z.to_int z).

(** Structural isomorphism between a value and its JSON-safe image. *)
Inductive isomorphic : value → value → Prop :=
  | iso_bytes bs s : lowercase_hex_of bs s → isomorphic (VUint8Array bs) (VString s)
  | iso_bigint z s : decimal_of z s → isomorphic (VBigInt z) (VString s)
  | iso_array xs ys : Forall2 isomorphic xs ys → isomorphic (VArray xs) (VArray ys)
  | iso_object ps qs :
      Forall2 (λ p q, p.1 = q.1 ∧ isomorphic p.2 q.2) ps qs →
      isomorphic (VObject ps) (VObject qs)
  | iso_boolean b : isomorphic (VBoolean b) (VBoolean b)
  | iso_number x : isomorphic (VNumber x) (VNumber x)
  | iso_string s : isomorphic (VString s) (VString s).

(** The serializer of §4.3, case by case. *)
Fixpoint spec_serialize (v : value) : value :=
  match v with
  | VUint8Array bs => VString (toString_hex bs)
  | VBigInt z => VString (BigInt_toString z)
  | VArray xs => VArray (List.map spec_serialize xs)
  | VObject props => VObject (List.map (λ kv, (kv.1, spec_serialize kv.2)) props)
  | _ => v
  end.

(** *** More vocabulary: the serializer *)

(** [null] occurs in [v]: as [v] itself, as an element, or as the value of
    a property. *)
Fixpoint has_null (v : value) : bool :=
  match v with
  | VNull => true
  | VArray xs => existsb has_null xs
  | VObject props => existsb (λ kv, has_null kv.2) props
  | _ => false
  end.

(** The shape of what [serializeValue] returns: no bigint, no byte
    sequence and no [null] anywhere, and objects with distinct keys in the
    order of [Object.entries], none of them [__proto__]. *)
Fixpoint serialized_form (w : value) : bool :=
  match w with
  | VNull | VBigInt _ | VUint8Array _ => false
  | VUndefined | VBoolean _ | VNumber _ | VString _ => true
  | VArray xs => forallb serialized_form xs
  | VObject props =>
      bool_decide (NoDup props.*1) && enumeration_order props.*1
      && forallb (λ kv, negb (String.eqb kv.1 "__proto__") && serialized_form kv.2) props
  end.

(** The two loops of [serializeValue], by name: the callback of
    [value.map] over the elements, and the reducer over [Object.entries]. *)
Definition serialize_elements : list value → result (list value) :=
  fix map (l : list value) : result (list value) :=
    match l with
    | [] => Ok []
    | x :: rest =>
        try y := serializeValue x in
        try ys := map rest in
        Ok (y :: ys)
    end.

Definition serialize_properties
  : list (string * value) → list (string * value) → result (list (string * value)) :=
  fix reduce (l : list (string * value)) (acc : list (string * value))
    : result (list (string * value)) :=
    match l with
    | [] => Ok acc
    | (key, val) :: rest =>
        try w := serializeValue val in
        reduce rest (assignProperty acc key w)
    end.

(** What [serializeValue] answers, by whether [null] occurs. *)
Definition null_verdict (v : value) (r : result value) : Prop :=
  match r with
  | Ok _ => has_null v = false
  | Throw e => has_null v = true ∧ e = null_entries
  end.

(** The properties an accumulator of the reducer holds: distinct keys in
    the order of [Object.entries], none of them [__proto__], each value in
    serialized form. *)
Definition serialized_properties (props : list (string * value)) : bool :=
  bool_decide (NoDup props.*1) && enumeration_order props.*1
  && forallb (λ kv, negb (String.eqb kv.1 "__proto__") && serialized_form kv.2) props.

(** *** More vocabulary: hexadecimal text *)

(** The lower-case form of a hexadecimal digit, and of a string of them. *)
Definition lower_hex (c : ascii) : ascii :=
  let n := N_of_ascii c in
  if ((65 <=? n) && (n <=? 70))%N then ascii_of_N (n + 32) else c.

Fixpoint lowercase_hex (s : string) : string :=
  match s with
  | "" => ""
  | String c rest => String (lower_hex c) (lowercase_hex rest)
  end.

(** *** More vocabulary: the log of a run *)

(** A broadcast of the method [name]. *)
Definition is_Broadcast_of (name : string) (ev : event) : bool :=
  match ev with
  | EvBroadcast operation _ _ _ => String.eqb (method operation) name
  | _ => false
  end.

Definition is_Broadcast (ev : event) : bool :=
  match ev with EvBroadcast _ _ _ _ => true | _ => false end.


(** *** A config store for the examples *)

Module DemoStore.

(** A store with one environment, [testnet], whose [stellar] entry has the
    auth verifier deployed; every write succeeds. *)
Definition store : ConfigStore := {|
  loadConfig := λ env,
    if String.eqb env "testnet"
    then Some {| document := Demo.config; stellar := Demo.chain_with_auth |}
    else None;
  saveConfig := λ _ _, true;
|}.

End DemoStore.
(** ** Induction on values

    A value nests values in lists and in lists of pairs: the induction
    hypothesis holds of every element and of every property. *)

Section ValueInduction.

Variable P : value → Prop.
Hypothesis Hundefined : P VUndefined.
Hypothesis Hnull : P VNull.
Hypothesis Hboolean : ∀ b, P (VBoolean b).
Hypothesis Hnumber : ∀ x, P (VNumber x).
Hypothesis Hstring : ∀ s, P (VString s).
Hypothesis Hbigint : ∀ z, P (VBigInt z).
Hypothesis Hbytes : ∀ bs, P (VUint8Array bs).
Hypothesis Harray : ∀ xs, Forall P xs → P (VArray xs).
Hypothesis Hobject : ∀ props, Forall (λ kv, P kv.2) props → P (VObject props).

Fixpoint value_nested_ind (v : value) : P v :=
  match v with
  | VUndefined => Hundefined
  | VNull => Hnull
  | VBoolean b => Hboolean b
  | VNumber x => Hnumber x
  | VString s => Hstring s
  | VBigInt z => Hbigint z
  | VUint8Array bs => Hbytes bs
  | VArray xs =>
      Harray xs
        ((fix all (l : list value) : Forall P l :=
            match l with
            | [] => List.Forall_nil P
            | x :: rest => List.Forall_cons P x rest (value_nested_ind x) (all rest)
            end) xs)
  | VObject props =>
      Hobject props
        ((fix all (l : list (string * value)) : Forall (λ kv, P kv.2) l :=
            match l with
            | [] => List.Forall_nil _
            | kv :: rest =>
                List.Forall_cons (λ kv, P kv.2) kv rest
                  (match kv with (_, x) => value_nested_ind x end) (all rest)
            end) props)
  end.

End ValueInduction.

(** * Proofs *)


Lemma hex_of_byte_parse b rest :
  parse_hex (hex_of_byte b +:+ rest) = bs ← parse_hex rest; Some (b :: bs).
Proof. destruct b; reflexivity. Qed.

Lemma parse_hex_toString_hex bs : parse_hex (toString_hex bs) = Some bs.
Proof.
  induction bs as [|b bs IH]; [done|].
  cbn [toString_hex]. by rewrite hex_of_byte_parse, IH.
Qed.

Lemma hex_of_byte_lower b rest :
  forallb is_lower_hex (list_ascii_of_string (hex_of_byte b +:+ rest))
  = forallb is_lower_hex (list_ascii_of_string rest).
Proof. destruct b; reflexivity. Qed.

Lemma toString_hex_lower bs :
  forallb is_lower_hex (list_ascii_of_string (toString_hex bs)) = true.
Proof.
  induction bs as [|b bs IH]; [done|].
  cbn [toString_hex]. by rewrite hex_of_byte_lower.
Qed.

Lemma toString_hex_length bs : String.length (toString_hex bs) = (2 * length bs)%nat.
Proof.
  induction bs as [|b bs IH]; [done|].
  change (S (S (String.length (toString_hex bs))) = (2 * S (length bs))%nat).
  rewrite IH. lia.
Qed.

Lemma toString_hex_spec bs : lowercase_hex_of bs (toString_hex bs).
Proof. split; [apply toString_hex_lower | apply parse_hex_toString_hex]. Qed.

Lemma BigInt_toString_spec z : decimal_of z (BigInt_toString z).
Proof.
  unfold decimal_of, BigInt_toString.
  apply NilZero.isi; destruct z as [|p|p]; simpl; try discriminate;
    intros [= H]; by apply DecimalPos.Unsigned.to_uint_nonnil in H.
Qed.

Lemma hasOwnProperty_elem_of props key :
  hasOwnProperty props key = true ↔ key ∈ props.*1.
Proof.
  unfold hasOwnProperty. induction props as [|[k w] props IH]; cbn [existsb fst].
  - split; [done|]. by intros ?%elem_of_nil.
  - cbn [fmap list_fmap fst]. rewrite orb_true_iff, IH, elem_of_cons.
    destruct (String.eqb_spec k key); naive_solver.
Qed.

Lemma hasOwnProperty_fresh props key :
  key ∉ props.*1 → hasOwnProperty props key = false.
Proof.
  intros Hfresh. apply not_true_is_false. by rewrite hasOwnProperty_elem_of.
Qed.

Lemma place_last props key v :
  forallb (λ k, precedes k key) props.*1 = true → place props key v = props ++ [(key, v)].
Proof.
  induction props as [|[k w] props IH]; [done|].
  cbn [fmap list_fmap fst forallb place]. intros [Hk Hks]%andb_prop.
  rewrite Hk. cbn. by rewrite IH.
Qed.

(** In an enumeration, every key precedes the keys after it. *)
Lemma enumeration_order_app keys keys' :
  enumeration_order (keys ++ keys') = true
  ↔ enumeration_order keys = true ∧ enumeration_order keys' = true
    ∧ ∀ k k', k ∈ keys → k' ∈ keys' → precedes k k' = true.
Proof.
  induction keys as [|k keys IH]; cbn [app enumeration_order].
  - split; [|naive_solver]. intros ?. split_and!; [done|done|]. by intros ?? ?%elem_of_nil.
  - rewrite !andb_true_iff, IH, !forallb_forall. setoid_rewrite <- list_elem_of_In.
    setoid_rewrite elem_of_app. setoid_rewrite elem_of_cons. naive_solver.
Qed.

Lemma enumeration_order_before keys key rest :
  enumeration_order (keys ++ key :: rest) = true →
  forallb (λ k, precedes k key) keys = true.
Proof.
  intros (_ & _ & Hcross)%enumeration_order_app. apply forallb_forall.
  intros k Hk%list_elem_of_In. apply Hcross; [done|left].
Qed.

Lemma defineProperty_fresh props key v :
  key ∉ props.*1 → forallb (λ k, precedes k key) props.*1 = true →
  defineProperty props key v = props ++ [(key, v)].
Proof.
  intros Hfresh Hbefore. unfold defineProperty.
  rewrite hasOwnProperty_fresh by done. by apply place_last.
Qed.

Lemma assignProperty_fresh acc key v :
  key ≠ "__proto__" → key ∉ acc.*1 → forallb (λ k, precedes k key) acc.*1 = true →
  assignProperty acc key v = acc ++ [(key, v)].
Proof.
  intros Hproto Hfresh Hbefore. unfold assignProperty.
  destruct (String.eqb_spec key "__proto__"); [done|].
  by apply defineProperty_fresh.
Qed.

Lemma assignProperty_proto acc v : assignProperty acc "__proto__" v = acc.
Proof. reflexivity. Qed.

(** On its domain, and away from the key [__proto__], the serializer is
    the function of §4.3. *)
Lemma serializeValue_spec_serialize v :
  in_domain v = true → ordinary_keys v = true →
  serializeValue v = Ok (spec_serialize v).
Proof.
  induction v as [| |b|x|s|z|bs|xs IH|props IH] using value_nested_ind;
    intros Hdom Hkeys; try done.
  - cbn [serializeValue spec_serialize].
    match goal with
    | |- rmap VArray (?f xs) = _ =>
        assert (f xs = Ok (List.map spec_serialize xs)) as ->; [|done]
    end.
    cbn [in_domain ordinary_keys] in Hdom, Hkeys.
    induction IH as [|x xs Hx _ IHxs]; [done|].
    cbn [forallb] in Hdom, Hkeys.
    apply andb_prop in Hdom as [Hd Hds], Hkeys as [Hk Hks].
    rewrite Hx by done. cbn [rbind]. rewrite IHxs by done. done.
  - cbn [serializeValue spec_serialize].
    cbn [in_domain ordinary_keys] in Hdom, Hkeys.
    apply andb_prop in Hdom as [[Hnodup Horder]%andb_prop Hdom].
    apply bool_decide_eq_true in Hnodup.
    match goal with
    | |- rmap VObject (?f props []) = _ =>
        assert (∀ acc, NoDup (acc.*1 ++ props.*1) →
                  enumeration_order (acc.*1 ++ props.*1) = true →
                  f props acc
                  = Ok (acc ++ List.map (λ kv, (kv.1, spec_serialize kv.2)) props)) as Hloop
    end.
    { clear Hnodup Horder.
      induction IH as [|[k x] props Hx _ IHprops]; intros acc Hnodup Horder.
      - by rewrite app_nil_r.
      - cbn [forallb fst snd] in Hdom, Hkeys.
        apply andb_prop in Hdom as [Hd Hds], Hkeys as [Hk Hks].
        apply andb_prop in Hk as [Hproto Hk].
        cbn [snd] in Hx. rewrite Hx by done. cbn [rbind].
        cbn [fmap list_fmap fst] in Hnodup, Horder.
        rewrite assignProperty_fresh.
        + rewrite IHprops; [by rewrite <- app_assoc|done|done|..];
            by rewrite fmap_app, <- app_assoc.
        + apply negb_true_iff in Hproto. by destruct (String.eqb_spec k "__proto__").
        + apply NoDup_app in Hnodup as (_ & Hdisj & _).
          intros Hin. apply (Hdisj k Hin). left.
        + by eapply enumeration_order_before. }
    by rewrite Hloop.
Qed.

Lemma spec_serialize_isomorphic v :
  in_domain v = true → isomorphic v (spec_serialize v).
Proof.
  induction v as [| |b|x|s|z|bs|xs IH|props IH] using value_nested_ind;
    intros Hdom; try done; cbn [spec_serialize].
  - constructor.
  - constructor.
  - constructor.
  - constructor. apply BigInt_toString_spec.
  - constructor. apply toString_hex_spec.
  - constructor. cbn [in_domain] in Hdom.
    induction IH as [|x xs Hx _ IHxs]; [constructor|].
    cbn [forallb] in Hdom. apply andb_prop in Hdom as [Hd Hds].
    constructor; auto.
  - constructor. cbn [in_domain] in Hdom.
    apply andb_prop in Hdom as [_ Hdom].
    clear -IH Hdom.
    induction IH as [|[k x] props Hx _ IHprops]; [constructor|].
    cbn [forallb snd] in Hdom. apply andb_prop in Hdom as [Hd Hds].
    constructor; auto.
Qed.

Lemma spec_serialize_json_safe v :
  in_domain v = true → json_safe (spec_serialize v) = true.
Proof.
  induction v as [| |b|x|s|z|bs|xs IH|props IH] using value_nested_ind;
    intros Hdom; try done; cbn [spec_serialize json_safe].
  - cbn [in_domain] in Hdom.
    induction IH as [|x xs Hx _ IHxs]; [done|].
    cbn [forallb] in Hdom. apply andb_prop in Hdom as [Hd Hds].
    cbn [List.map forallb]. by rewrite Hx, IHxs.
  - cbn [in_domain] in Hdom.
    apply andb_prop in Hdom as [_ Hdom].
    induction IH as [|[k x] props Hx _ IHprops]; [done|].
    cbn [forallb snd] in Hdom. apply andb_prop in Hdom as [Hd Hds].
    cbn [List.map forallb snd]. cbn [snd] in Hx. by rewrite Hx, IHprops.
Qed.

(** X20.  For every value built from byte sequences, ordered sequences,
    bigints, records and the scalars string, boolean and finite number, in
    which no record has a property named [__proto__], [serializeValue]
    returns a structurally isomorphic JSON-safe value: bytes as lowercase
    hexadecimal text, bigints as decimal text, sequences element by element
    in order, records with the same keys in the same order and their values
    serialized, scalars unchanged. *)
Theorem serializeValue_isomorphic (v : value) :
  in_domain v = true → ordinary_keys v = true →
  ∃ w, serializeValue v = Ok w ∧ w = spec_serialize v
       ∧ isomorphic v w ∧ json_safe w = true.
Proof.
  intros Hdom Hkeys. exists (spec_serialize v). split_and!.
  - by apply serializeValue_spec_serialize.
  - done.
  - by apply spec_serialize_isomorphic.
  - by apply spec_serialize_json_safe.
Qed.

Lemma serializeValue_isomorphic_witness :
  ∃ w, serializeValue
         (VObject [("nonce", VUint8Array [x00; xff; x1a]);
                   ("weights", VArray [VBigInt 18446744073709551616; VBigInt (-7)]);
                   ("inner", VObject [("ok", VBoolean true); ("n", VNumber 15)])]) = Ok w
       ∧ w = spec_serialize
               (VObject [("nonce", VUint8Array [x00; xff; x1a]);
                         ("weights", VArray [VBigInt 18446744073709551616; VBigInt (-7)]);
                         ("inner", VObject [("ok", VBoolean true); ("n", VNumber 15)])])
       ∧ isomorphic
           (VObject [("nonce", VUint8Array [x00; xff; x1a]);
                     ("weights", VArray [VBigInt 18446744073709551616; VBigInt (-7)]);
                     ("inner", VObject [("ok", VBoolean true); ("n", VNumber 15)])]) w
       ∧ json_safe w = true.
Proof. apply serializeValue_isomorphic; vm_compute; reflexivity. Defined.

(** A record with an own property named [__proto__] is what
    [scValToNative] returns for a map with that key: [Object.fromEntries]
    keeps the key, here and where [processCommand] rebuilds the arguments. *)
Example fromEntries_keeps_proto_key :
  scValToNative (scvMap [("__proto__", scvString "x")])
  = VObject [("__proto__", VString "x")]
  ∧ fromEntries [("__proto__", VString "x")] = [("__proto__", VString "x")].
Proof. by split. Qed.


(** C9.  [null] is JSON-safe, yet [serializeValue(null)] throws: [null] is
    classified as an object and handed to [Object.entries].  Every other
    scalar (string, boolean, number, undefined) is returned unchanged. *)
Theorem serializeValue_null_throws :
  json_safe VNull = true
  ∧ serializeValue VNull = Throw (TypeError "Cannot convert undefined or null to object")
  ∧ serializeValue VNull ≠ Ok VNull
  ∧ (∀ s, serializeValue (VString s) = Ok (VString s))
  ∧ (∀ b, serializeValue (VBoolean b) = Ok (VBoolean b))
  ∧ (∀ x, serializeValue (VNumber x) = Ok (VNumber x))
  ∧ serializeValue VUndefined = Ok VUndefined.
Proof. by split_and!. Qed.

(** ** The argument builder *)

Lemma arrayify_hexlify_bytes bs : arrayify (hexlify bs) = Ok bs.
Proof.
  unfold hexlify.
  change (match parse_hex (toString_hex bs) with
          | Some bs' => Ok bs'
          | None => Throw (InvalidHex ("0x" +:+ toString_hex bs))
          end = Ok bs).
  by rewrite parse_hex_toString_hex.
Qed.

Lemma arrayify_id ext text : arrayify (id ext text) = Ok (keccak256 ext (toUtf8Bytes text)).
Proof. apply arrayify_hexlify_bytes. Qed.

Lemma truthy_Some s : truthy (Some s) = true ↔ s ≠ "".
Proof.
  unfold truthy. destruct (String.eqb_spec s ""); split; intros; try done.
Qed.

Lemma getInitializeArgs_operators ext config wallet options s :
  getInitializeArgs ext config "axelar_operators" wallet options s
  = (Ok [("owner", scvAddress (publicKey wallet))], s).
Proof. reflexivity. Qed.

Lemma getInitializeArgs_unsupported ext config contractName wallet options s :
  contractName ∉ supported_names →
  getInitializeArgs ext config contractName wallet options s
  = (Throw (UnknownContract contractName), s).
Proof.
  unfold supported_names. intros Hname.
  repeat (apply not_elem_of_cons in Hname as [? Hname]).
  unfold getInitializeArgs.
  repeat match goal with
         | |- context [String.eqb contractName ?n] =>
             destruct (String.eqb_spec contractName n); [done|]
         end.
  done.
Qed.

Lemma getInitializeArgs_gateway_falsy ext config wallet options s :
  truthy (r ← record_of (chain s) "axelar_auth_verifier"; address r) = false →
  getInitializeArgs ext config "axelar_gateway" wallet options s
  = (Throw MissingDependency, s).
Proof.
  intros Hfalsy. unfold getInitializeArgs. cbn [String.eqb Ascii.eqb Bool.eqb].
  unfold bind, getChain. cbn. by rewrite Hfalsy.
Qed.

(** Symbolic execution of a monadic computation in a hypothesis. *)
Ltac unfold_M H :=
  cbv beta iota zeta delta
    [bind call emit lift getChain putChain getPrototype putPrototype setContracts
       newRegistry assignRecord assignInitializeArgs ret throw printInfo start] in H;
  cbn [negb fst snd chain log prototype rpc networkType contracts address deployer
         initializeArgs default from_option Datatypes.id String.eqb Ascii.eqb Bool.eqb] in H.

Ltac case_innermost H :=
  match type of H with
  | context [match ?x with _ => _ end] =>
      lazymatch x with
      | context [match _ with _ => _ end] => fail
      | negb ?y => destruct y eqn:?
      | _ => destruct x eqn:?
      end
  end.

Ltac exec_using rw H :=
  unfold_M H;
  repeat (first [progress rw H | case_innermost H]; unfold_M H);
  simplify_eq.

Ltac exec H := exec_using ltac:(fun _ => fail) H.

Lemma getInitializeArgs_Ok_owner ext config contractName wallet options s args s' :
  getInitializeArgs ext config contractName wallet options s = (Ok args, s') →
  property "owner" args = Some (scvAddress (publicKey wallet)).
Proof.
  intros H. unfold getInitializeArgs in H. exec H; reflexivity.
Qed.

Lemma getInitializeArgs_Ok_supported ext config contractName wallet options s args s' :
  getInitializeArgs ext config contractName wallet options s = (Ok args, s') →
  contractName ∈ supported_names.
Proof.
  intros H. destruct (decide (contractName ∈ supported_names)) as [|Hno]; [done|].
  by rewrite getInitializeArgs_unsupported in H.
Qed.

Lemma getInitializeArgs_Ok_ordinary ext config contractName wallet options s args s' :
  getInitializeArgs ext config contractName wallet options s = (Ok args, s') →
  String.eqb contractName "__proto__" = false.
Proof.
  intros Hin%getInitializeArgs_Ok_supported. unfold supported_names in Hin.
  repeat (apply elem_of_cons in Hin as [->|Hin]); [done..|by apply elem_of_nil in Hin].
Qed.

Lemma supported_iff contractName : supported contractName ↔ contractName ∈ supported_names.
Proof.
  split.
  - intros (ext & config & wallet & options & s & args & s' & H).
    by eapply getInitializeArgs_Ok_supported.
  - unfold supported_names. intros Hin.
    repeat (apply elem_of_cons in Hin as [->|Hin]); [| | |by apply elem_of_nil in Hin].
    + exists Demo.world, Demo.config, Demo.wallet,
        (Demo.options "axelar_gateway" true None None), (start Demo.chain_with_auth).
      eexists _, _. by vm_compute.
    + exists Demo.world, Demo.config, Demo.wallet,
        (Demo.options "axelar_auth_verifier" true None None), (start Demo.fresh_chain).
      eexists _, _. by vm_compute.
    + exists Demo.world, Demo.config, Demo.wallet,
        (Demo.options "axelar_operators" true None None), (start Demo.fresh_chain).
      eexists _, _. by vm_compute.
Qed.

(** C1, as amended.  For all three supported contract identifiers
    (axelar_gateway, axelar_auth_verifier, axelar_operators: the builder
    succeeds on these and on no other), the argument set [getInitializeArgs]
    returns has an [owner] entry, the wallet's address, for every chain
    state, wallet and options under which it succeeds. *)
Theorem getInitializeArgs_owner ext config contractName wallet options s args s' :
  getInitializeArgs ext config contractName wallet options s = (Ok args, s') →
  property "owner" args = Some (scvAddress (publicKey wallet))
  ∧ contractName ∈ supported_names
  ∧ length supported_names = 3%nat
  ∧ ∀ name, supported name ↔ name ∈ supported_names.
Proof.
  intros H. split_and!.
  - by eapply getInitializeArgs_Ok_owner.
  - by eapply getInitializeArgs_Ok_supported.
  - done.
  - apply supported_iff.
Qed.

Lemma getInitializeArgs_owner_witness :
  property "owner" [("owner", scvAddress Demo.wallet_key)]
    = Some (scvAddress (publicKey Demo.wallet))
  ∧ "axelar_operators" ∈ supported_names
  ∧ length supported_names = 3%nat
  ∧ ∀ name, supported name ↔ name ∈ supported_names.
Proof.
  apply (getInitializeArgs_owner Demo.world Demo.config "axelar_operators" Demo.wallet
           (Demo.options "axelar_operators" true None None) (start Demo.fresh_chain)
           _ (start Demo.fresh_chain)).
  reflexivity.
Defined.

(** C1, as stated, speaks of four supported identifiers: there are no four
    distinct identifiers on which the builder can succeed. *)
Lemma no_four_supported_names :
  ¬ ∃ names : list string,
      length names = 4%nat ∧ NoDup names ∧ Forall supported names.
Proof.
  intros (names & Hlen & Hnodup & Hall).
  assert (names ⊆ supported_names) as Hsub.
  { intros n Hn. apply supported_iff. by eapply Forall_forall in Hall. }
  apply NoDup_submseteq in Hsub; [|done].
  apply submseteq_length in Hsub. rewrite Hlen in Hsub. cbn in Hsub. lia.
Qed.

(** C2.  With no auth-verifier record holding an address in the registry,
    building the gateway's arguments fails with [MissingDependency] and
    leaves the chain state, its registry included, as it was. *)
Theorem getInitializeArgs_gateway_missing ext config wallet options s :
  (r ← record_of (chain s) "axelar_auth_verifier"; address r) = None →
  getInitializeArgs ext config "axelar_gateway" wallet options s
  = (Throw MissingDependency, s)
  ∧ message MissingDependency = Some "Missing axelar_auth_verifier contract address".
Proof.
  intros Hnone. split; [|done].
  apply getInitializeArgs_gateway_falsy. by rewrite Hnone.
Qed.

Lemma getInitializeArgs_gateway_missing_witness :
  getInitializeArgs Demo.world Demo.config "axelar_gateway" Demo.wallet
    (Demo.options "axelar_gateway" true None None) (start Demo.fresh_chain)
  = (Throw MissingDependency, start Demo.fresh_chain)
  ∧ message MissingDependency = Some "Missing axelar_auth_verifier contract address".
Proof. apply getInitializeArgs_gateway_missing. reflexivity. Defined.

(** C3.  On every identifier other than axelar_gateway, axelar_auth_verifier
    and axelar_operators the builder fails with [UnknownContract], whatever
    the chain state, the wallet and the options. *)
Theorem getInitializeArgs_unknown ext config contractName wallet options s :
  contractName ∉ ["axelar_gateway"; "axelar_auth_verifier"; "axelar_operators"] →
  getInitializeArgs ext config contractName wallet options s
  = (Throw (UnknownContract contractName), s)
  ∧ message (UnknownContract contractName) = Some ("Unknown contract: " +:+ contractName).
Proof.
  intros Hname. split; [|done]. by apply getInitializeArgs_unsupported.
Qed.

Lemma getInitializeArgs_unknown_witness :
  getInitializeArgs Demo.world Demo.config "axelar_its" Demo.wallet
    (Demo.options "axelar_its" true None None) (start Demo.chain_with_auth)
  = (Throw (UnknownContract "axelar_its"), start Demo.chain_with_auth)
  ∧ message (UnknownContract "axelar_its") = Some ("Unknown contract: " +:+ "axelar_its").
Proof.
  apply getInitializeArgs_unknown.
  intros Hin. repeat (apply elem_of_cons in Hin as [Hin|Hin]; [discriminate Hin|]).
  by apply elem_of_nil in Hin.
Defined.

Lemma truthy_false_cases o : truthy o = false ↔ o = None ∨ o = Some "".
Proof.
  destruct o as [s|]; cbn; [|naive_solver].
  destruct (String.eqb_spec s ""); naive_solver.
Qed.

(** C4, as amended.  The Signer Set handed to [weightedSignersToScVal] for
    the auth-verifier identifier, whose image is the only element of the
    [initialSigners] argument, has exactly one signer, the wallet's public
    key with weight 1, threshold 1 and a 32-byte nonce: the zero bytes when
    [options.nonce] is absent or the empty string, the keccak256 id of the
    string when it is a non-empty string. *)
Theorem getInitializeArgs_signer_set ext config wallet options s args s' :
  getInitializeArgs ext config "axelar_auth_verifier" wallet options s = (Ok args, s') →
  ∃ signerSet scv,
    property "initialSigners" args = Some (scvVec [scv])
    ∧ weightedSignersToScVal ext signerSet = Some scv
    ∧ WeightedSigners.signers signerSet = [{| signer := publicKey wallet; weight := 1 |}]
    ∧ WeightedSigners.threshold signerSet = 1%Z
    ∧ length (WeightedSigners.nonce signerSet) = 32%nat
    ∧ (Options.nonce options = None ∨ Options.nonce options = Some "" →
       WeightedSigners.nonce signerSet = replicate 32 x00)
    ∧ (∀ text, Options.nonce options = Some text → text ≠ "" →
       arrayify (id ext text) = Ok (WeightedSigners.nonce signerSet)
       ∧ WeightedSigners.nonce signerSet = keccak256 ext (toUtf8Bytes text)).
Proof.
  intros H. unfold getInitializeArgs in H.
  cbn [String.eqb Ascii.eqb Bool.eqb] in H.
  rewrite arrayify_id in H. exec H.
  - eexists _, _. split_and!; try done.
    + apply keccak256_length.
    + intros Hfalsy. apply truthy_false_cases in Hfalsy. congruence.
    + intros text Htext _. rewrite arrayify_id, Htext. done.
  - eexists _, _. split_and!; try done.
    intros text Htext Hne. exfalso.
    rewrite Htext in *. by apply truthy_Some in Hne; congruence.
Qed.

Lemma getInitializeArgs_signer_set_witness :
  ∃ signerSet scv,
    property "initialSigners" (Demo.auth_args (Demo.digest (toUtf8Bytes "salt")))
      = Some (scvVec [scv])
    ∧ weightedSignersToScVal Demo.world signerSet = Some scv
    ∧ WeightedSigners.signers signerSet
      = [{| signer := publicKey Demo.wallet; weight := 1 |}]
    ∧ WeightedSigners.threshold signerSet = 1%Z
    ∧ length (WeightedSigners.nonce signerSet) = 32%nat
    ∧ arrayify (id Demo.world "salt") = Ok (WeightedSigners.nonce signerSet)
    ∧ WeightedSigners.nonce signerSet = keccak256 Demo.world (toUtf8Bytes "salt").
Proof.
  destruct (getInitializeArgs_signer_set Demo.world Demo.config Demo.wallet
              (Demo.options "axelar_auth_verifier" true None (Some "salt"))
              (start Demo.fresh_chain)
              (Demo.auth_args (Demo.digest (toUtf8Bytes "salt")))
              {| chain := Demo.fresh_chain; log := [EvGetDomainSeparator]; prototype := None |})
    as (signerSet & scv & Hargs & Hscv & Hsigners & Hthreshold & Hlength & _ & Hnonce).
  - vm_compute. reflexivity.
  - exists signerSet, scv.
    destruct (Hnonce "salt" eq_refl) as [Hid Hhash]; [discriminate|].
    split_and!; assumption.
Defined.

(** C4, as stated, fails when [options.nonce] is supplied as the empty
    string: the empty string is falsy, so the nonce is the zero bytes and
    not the keccak256 id of the string. *)
Lemma empty_nonce_is_not_hashed :
  Options.nonce (Demo.options "axelar_auth_verifier" true None (Some "")) = Some ""
  ∧ getInitializeArgs Demo.world Demo.config "axelar_auth_verifier" Demo.wallet
      (Demo.options "axelar_auth_verifier" true None (Some "")) (start Demo.fresh_chain)
    = (Ok (Demo.auth_args (replicate 32 x00)),
       {| chain := Demo.fresh_chain; log := [EvGetDomainSeparator]; prototype := None |})
  ∧ arrayify (id Demo.world "") = Ok (Demo.digest [])
  ∧ Demo.digest [] ≠ replicate 32 x00.
Proof. split_and!; [done | by vm_compute | by vm_compute | discriminate]. Qed.

(** ** The orchestrator *)

(** *** Frame lemmas *)

Section Frames.

Context {A B : Type} (P : event → Prop).

Lemma emits_silent (m : M A) :
  (∀ s r s', m s = (r, s') → log s' = log s) → emits P m.
Proof.
  intros Hm s r s' H. exists []. rewrite app_nil_r. split; [by eapply Hm|constructor].
Qed.

Lemma emits_ret (a : A) : emits P (ret a).
Proof. apply emits_silent. by intros s r s' [= _ <-]. Qed.

Lemma emits_throw e : emits P (@throw A e).
Proof. apply emits_silent. by intros s r s' [= _ <-]. Qed.

Lemma emits_lift (x : result A) : emits P (lift x).
Proof. apply emits_silent. by intros s r s' [= _ <-]. Qed.

Lemma emits_bind (m : M A) (k : A → M B) :
  emits P m → (∀ a, emits P (k a)) → emits P (bind m k).
Proof.
  intros Hm Hk s r s' H. unfold bind in H.
  destruct (m s) as [[a|e] s1] eqn:Hms.
  - destruct (Hm _ _ _ Hms) as (evs1 & Hlog1 & Hall1).
    destruct (Hk _ _ _ _ H) as (evs2 & Hlog2 & Hall2).
    exists (evs1 ++ evs2). rewrite Hlog2, Hlog1, <- app_assoc.
    split; [done|by apply Forall_app].
  - simplify_eq. by eapply Hm.
Qed.

Lemma readonly_ret (a : A) : readonly (ret a).
Proof. by intros s r s' [= _ <-]. Qed.

Lemma readonly_throw e : readonly (@throw A e).
Proof. by intros s r s' [= _ <-]. Qed.

Lemma readonly_lift (x : result A) : readonly (lift x).
Proof. by intros s r s' [= _ <-]. Qed.

Lemma readonly_bind (m : M A) (k : A → M B) :
  readonly m → (∀ a, readonly (k a)) → readonly (bind m k).
Proof.
  intros Hm Hk s r s' H. unfold bind in H.
  destruct (m s) as [[a|e] s1] eqn:Hms.
  - destruct (Hk _ _ _ _ H) as [-> ->]. by eapply Hm.
  - simplify_eq. by eapply Hm.
Qed.

End Frames.

Lemma emits_getChain P : emits P getChain.
Proof. apply emits_silent. by intros s r s' [= _ <-]. Qed.

Lemma emits_putChain P c : emits P (putChain c).
Proof. apply emits_silent. by intros s r s' [= _ <-]. Qed.

Lemma emits_emit (P : event → Prop) ev : P ev → emits P (emit ev).
Proof. intros Hev s r s' [= _ <-]. exists [ev]. split; [done|by constructor]. Qed.

Lemma emits_setContracts P cs : emits P (setContracts cs).
Proof. apply emits_bind; [apply emits_getChain|intros; apply emits_putChain]. Qed.

Lemma emits_getPrototype P : emits P getPrototype.
Proof. apply emits_silent. by intros s r s' [= _ <-]. Qed.

Lemma emits_putPrototype P p : emits P (putPrototype p).
Proof. apply emits_silent. by intros s r s' [= _ <-]. Qed.

Lemma emits_call {A} (P : event → Prop) ev e (x : option A) :
  P ev → emits P (call ev e x).
Proof.
  intros Hev. apply emits_bind; [by apply emits_emit|].
  intros _. destruct x; [apply emits_ret|apply emits_throw].
Qed.

Lemma readonly_getChain : readonly getChain.
Proof. by intros s r s' [= _ <-]. Qed.

Lemma readonly_emit ev : readonly (emit ev).
Proof. by intros s r s' [= _ <-]. Qed.

Lemma readonly_call {A} ev e (x : option A) : readonly (call ev e x).
Proof.
  apply readonly_bind; [apply readonly_emit|].
  intros _. destruct x; [apply readonly_ret|apply readonly_throw].
Qed.

Create HintDb frames.
#[local] Hint Resolve emits_ret emits_throw emits_lift emits_getChain emits_putChain
  emits_setContracts emits_getPrototype emits_putPrototype readonly_ret readonly_throw readonly_lift readonly_getChain
  readonly_emit readonly_call : frames.

(** Walks down a computation: binds, then the cases of each conditional. *)
Ltac frame_step :=
  match goal with
  | |- emits _ (bind _ _) => apply emits_bind; [|intros ?]
  | |- readonly (bind _ _) => apply readonly_bind; [|intros ?]
  | |- emits _ (call _ _ _) => apply emits_call
  | |- emits _ (emit _) => apply emits_emit
  | |- emits _ (printInfo _) => apply emits_emit
  | |- readonly (printInfo _) => apply readonly_emit
  | |- emits _ (if ?b then _ else _) => destruct b eqn:?
  | |- readonly (if ?b then _ else _) => destruct b eqn:?
  | |- emits _ (match ?x with _ => _ end) => destruct x eqn:?
  | |- readonly (match ?x with _ => _ end) => destruct x eqn:?
  | |- _ => solve [eauto with frames]
  end.

(** The writes to the registry log nothing. *)
Lemma emits_newRegistry P : emits P newRegistry.
Proof. unfold newRegistry. repeat frame_step. Qed.

Lemma emits_assignRecord P name record : emits P (assignRecord name record).
Proof. unfold assignRecord. cbv zeta. repeat frame_step. Qed.

Lemma emits_assignInitializeArgs P name serializedArgs :
  emits P (assignInitializeArgs name serializedArgs).
Proof. unfold assignInitializeArgs. cbv zeta. repeat frame_step. Qed.

#[local] Hint Resolve emits_newRegistry emits_assignRecord emits_assignInitializeArgs
  : frames.

(** The builder reads the chain state and logs at most the call for the
    domain separator. *)
Lemma getInitializeArgs_readonly ext config contractName wallet options :
  readonly (getInitializeArgs ext config contractName wallet options).
Proof. unfold getInitializeArgs. repeat frame_step. Qed.

Lemma getInitializeArgs_emits ext config contractName wallet options :
  emits (λ ev, ev = EvGetDomainSeparator)
        (getInitializeArgs ext config contractName wallet options).
Proof. unfold getInitializeArgs. repeat frame_step; done. Qed.

(** The gateway hook reads the chain state; it logs its notice and the
    broadcast of the ownership transfer. *)
Lemma postDeployGateway_readonly ext wallet options :
  readonly (postDeployGateway ext wallet options).
Proof. unfold postDeployGateway. repeat frame_step. Qed.

Lemma postDeployGateway_emits ext wallet options :
  emits (λ ev, match ev with
               | EvPrintInfo _ => True
               | EvBroadcast operation _ _ _ => method operation = "transfer_ownership"
               | _ => False
               end)
        (postDeployGateway ext wallet options).
Proof. unfold postDeployGateway. repeat frame_step; done. Qed.

Lemma emits_weaken {A} (P Q : event → Prop) (m : M A) :
  (∀ ev, P ev → Q ev) → emits P m → emits Q m.
Proof.
  intros HPQ Hm s r s' H. destruct (Hm _ _ _ H) as (evs & Hlog & Hall).
  exists evs. split; [done|]. by eapply Forall_impl.
Qed.

Lemma serializeArgs_owner key :
  serializeArgs [("owner", scvAddress key)] = Ok [("owner", VString key)].
Proof. reflexivity. Qed.

(** Reads the registry of the final state. *)
Ltac registry :=
  unfold record_of; cbn [chain contracts mbind option_bind];
  rewrite ?lookup_insert_eq; simplify_eq; try done.

(** C8.  Deploying axelar_operators with initialization requested and no
    [--address], once the soroban binary has succeeded: whatever happens
    next, the Contract Record holds the trimmed stdout of the binary as
    [address], the wallet's public key as [deployer], and
    [{ owner: <wallet address> }] as [initializeArgs]. *)
Theorem processCommand_operators_record
    ext options config c0 passphrase wallet stdout r s' :
  Options.contractName options = "axelar_operators" →
  Options.initialize options = true →
  Options.address options = None →
  getNetworkPassphrase ext (networkType c0) = Some passphrase →
  getWallet ext c0 options = Some wallet →
  execSync ext (deploy_command options c0 passphrase) = Some stdout →
  processCommand ext options config (start c0) = (r, s') →
  record_of (chain s') "axelar_operators"
  = Some {| address := Some (trimEnd stdout);
            deployer := Some (publicKey wallet);
            initializeArgs := Some [("owner", VString (publicKey wallet))] |}.
Proof.
  intros Hname Hinit Haddr Hpass Hwallet Hexec H.
  unfold processCommand in H.
  rewrite Hname, Hinit, Haddr in H.
  unfold_M H. rewrite Hpass in H. unfold_M H. rewrite Hwallet in H. unfold_M H.
  cbn [truthy negb] in H. rewrite Hexec in H.
  exec_using ltac:(fun H => first [rewrite getInitializeArgs_operators in H
                                  | rewrite serializeArgs_owner in H
                                  | rewrite lookup_insert_eq in H]) H;
    registry.
  all: try (unfold postDeployFunctions in *; discriminate).
Qed.

Lemma processCommand_operators_record_witness :
  record_of
    (chain (processCommand Demo.world (Demo.options "axelar_operators" true None None)
              Demo.config (start Demo.fresh_chain)).2)
    "axelar_operators"
  = Some {| address := Some (trimEnd (Demo.gateway_id +:+ String "010" ""));
            deployer := Some (publicKey Demo.wallet);
            initializeArgs := Some [("owner", VString (publicKey Demo.wallet))] |}.
Proof.
  apply (processCommand_operators_record Demo.world
           (Demo.options "axelar_operators" true None None) Demo.config Demo.fresh_chain
           "Test SDF Network ; September 2015" Demo.wallet
           (Demo.gateway_id +:+ String "010" "")
           (processCommand Demo.world (Demo.options "axelar_operators" true None None)
              Demo.config (start Demo.fresh_chain)).1);
    reflexivity.
Defined.

Lemma postDeployFunctions_Some ext contractName hook :
  postDeployFunctions ext contractName = Some hook →
  contractName = "axelar_gateway" ∧ hook = postDeployGateway ext.
Proof.
  unfold postDeployFunctions.
  destruct (String.eqb_spec contractName "axelar_gateway"); naive_solver.
Qed.

(** The calls [exec] does not look into: the builder and the hook leave
    the chain state alone, and their events are known by kind. *)
Ltac absorb_calls H :=
  first
    [ rewrite lookup_insert_eq in H
    | match goal with
      | Hp : postDeployFunctions _ _ = Some _ |- _ =>
          apply postDeployFunctions_Some in Hp as [? ->]
      | Hg : getInitializeArgs _ _ ?name _ _ _ = (Ok _, _),
        Hb : String.eqb ?name "__proto__" = true |- _ =>
          apply getInitializeArgs_Ok_ordinary in Hg; congruence
      | Hg : getInitializeArgs _ _ _ _ _ _ = (_, ?s1) |- _ =>
          is_var s1;
          let Hc := fresh "Hchain" in
          let Hp := fresh "Hproto" in
          let evs := fresh "evs" in
          let Hl := fresh "Hlog" in
          let He := fresh "Hevs" in
          pose proof (getInitializeArgs_readonly _ _ _ _ _ _ _ _ Hg) as [Hc Hp];
          pose proof (getInitializeArgs_emits _ _ _ _ _ _ _ _ Hg) as (evs & Hl & He);
          destruct s1; cbn [chain log prototype] in Hc, Hp, Hl, H; subst
      | Hg : postDeployGateway _ _ _ _ = (_, ?s1) |- _ =>
          is_var s1;
          let Hc := fresh "Hchain" in
          let Hp := fresh "Hproto" in
          let evs := fresh "evs" in
          let Hl := fresh "Hlog" in
          let He := fresh "Hevs" in
          pose proof (postDeployGateway_readonly _ _ _ _ _ _ Hg) as [Hc Hp];
          pose proof (postDeployGateway_emits _ _ _ _ _ _ Hg) as (evs & Hl & He);
          destruct s1; cbn [chain log prototype] in Hc, Hp, Hl, H; subst
      end ].

Lemma emits_start {A} (P : event → Prop) (m : M A) c r s' :
  emits P m → m (start c) = (r, s') → Forall P (log s').
Proof. intros Hm H. by destruct (Hm _ _ _ H) as (evs & -> & Hall). Qed.

Lemma processCommand_no_deploy ext options config :
  truthy (Options.address options) = true →
  emits (λ ev, is_ExecSync ev = false) (processCommand ext options config).
Proof.
  intros Haddr. unfold processCommand. rewrite Haddr. cbn [negb].
  repeat frame_step; try done.
  - eapply emits_weaken; [|apply getInitializeArgs_emits]. by intros ev ->.
  - match goal with
    | Hp : postDeployFunctions _ _ = Some _ |- _ =>
        apply postDeployFunctions_Some in Hp as [_ ->]
    end.
    eapply emits_weaken; [|apply postDeployGateway_emits]. by intros [].
Qed.

(** C6, as amended.  In every run in which [--address] is supplied with a
    non-empty value the deploy binary is never invoked; and once the network
    passphrase and the wallet are resolved, the Contract Record of the
    requested identifier, for an identifier other than [__proto__], has that
    value as [address] and the wallet's public key as [deployer], however
    the run ends. *)
Theorem processCommand_adopts_address ext options config c0 r s' :
  truthy (Options.address options) = true →
  processCommand ext options config (start c0) = (r, s') →
  Forall (λ ev, is_ExecSync ev = false) (log s')
  ∧ ∀ passphrase wallet,
      Options.contractName options ≠ "__proto__" →
      getNetworkPassphrase ext (networkType c0) = Some passphrase →
      getWallet ext c0 options = Some wallet →
      ∃ record,
        record_of (chain s') (Options.contractName options) = Some record
        ∧ address record = Options.address options
        ∧ deployer record = Some (publicKey wallet).
Proof.
  intros Haddr H. split.
  { eapply emits_start; [|done]. by apply processCommand_no_deploy. }
  intros passphrase wallet Hname%String.eqb_neq Hpass Hwallet.
  unfold processCommand in H. rewrite Haddr in H.
  unfold_M H. rewrite Hname in H.
  rewrite Hpass in H. unfold_M H. rewrite Hwallet in H. unfold_M H.
  destruct (Options.address options) as [addr|] eqn:Hsupplied; [|done].
  exec_using absorb_calls H; registry; eauto.
Qed.

Lemma processCommand_adopts_address_witness :
  Forall (λ ev, is_ExecSync ev = false)
    (log (processCommand Demo.world
            (Demo.options "axelar_operators" false (Some Demo.gateway_id) None)
            Demo.config (start Demo.fresh_chain)).2)
  ∧ ∃ record,
      record_of
        (chain (processCommand Demo.world
                  (Demo.options "axelar_operators" false (Some Demo.gateway_id) None)
                  Demo.config (start Demo.fresh_chain)).2)
        "axelar_operators"
      = Some record
      ∧ address record = Some Demo.gateway_id
      ∧ deployer record = Some (publicKey Demo.wallet).
Proof.
  destruct (processCommand_adopts_address Demo.world
              (Demo.options "axelar_operators" false (Some Demo.gateway_id) None)
              Demo.config Demo.fresh_chain
              (processCommand Demo.world
                 (Demo.options "axelar_operators" false (Some Demo.gateway_id) None)
                 Demo.config (start Demo.fresh_chain)).1
              (processCommand Demo.world
                 (Demo.options "axelar_operators" false (Some Demo.gateway_id) None)
                 Demo.config (start Demo.fresh_chain)).2)
    as [Hquiet Hrecord].
  - reflexivity.
  - reflexivity.
  - split; [exact Hquiet|].
    apply (Hrecord "Test SDF Network ; September 2015" Demo.wallet);
      [discriminate|reflexivity|reflexivity].
Defined.

(** C6, as stated, fails when [--address] is supplied with the empty
    string: the empty string is falsy, so the deploy binary is invoked and
    its stdout is what the registry records. *)
Lemma empty_address_is_deployed :
  Options.address (Demo.options "axelar_operators" false (Some "") None) = Some ""
  ∧ existsb is_ExecSync
      (log (processCommand Demo.world (Demo.options "axelar_operators" false (Some "") None)
              Demo.config (start Demo.fresh_chain)).2) = true
  ∧ address <$> record_of
                  (chain (processCommand Demo.world
                            (Demo.options "axelar_operators" false (Some "") None)
                            Demo.config (start Demo.fresh_chain)).2)
                  "axelar_operators"
    = Some (Some Demo.gateway_id).
Proof. split_and!; by vm_compute. Qed.

Lemma processCommand_no_initialization ext options config :
  Options.initialize options = false →
  emits (λ ev, is_initialization ev = false) (processCommand ext options config).
Proof.
  intros Hinit. unfold processCommand. rewrite Hinit. cbn [negb].
  repeat frame_step; done.
Qed.

(** C10, as amended.  With [--initialize] absent, whatever the contract
    identifier, no run builds arguments, calls [initialize] or runs a
    post-deploy hook, and none fails with [UnknownContract].  Once the
    network passphrase and the wallet are resolved and the deploy binary,
    when it is invoked, has succeeded, the run succeeds and, for an
    identifier other than [__proto__], the address and the deployer are
    recorded in the registry under the identifier. *)
Theorem processCommand_without_initialize ext options config c0 r s' :
  Options.initialize options = false →
  processCommand ext options config (start c0) = (r, s') →
  Forall (λ ev, is_initialization ev = false) (log s')
  ∧ (∀ name, r ≠ Throw (UnknownContract name))
  ∧ ∀ passphrase wallet,
      getNetworkPassphrase ext (networkType c0) = Some passphrase →
      getWallet ext c0 options = Some wallet →
      is_Some (recorded_address ext options c0 passphrase) →
      r = Ok tt
      ∧ (Options.contractName options ≠ "__proto__" →
         record_of (chain s') (Options.contractName options)
         = Some {| address := recorded_address ext options c0 passphrase;
                   deployer := Some (publicKey wallet);
                   initializeArgs := None |}).
Proof.
  intros Hinit H. split_and!.
  - eapply emits_start; [|done]. by apply processCommand_no_initialization.
  - intros name ->. unfold processCommand in H. rewrite Hinit in H.
    exec H.
  - intros passphrase wallet Hpass Hwallet [addr Haddr].
    unfold recorded_address in *.
    unfold processCommand in H. rewrite Hinit in H.
    unfold_M H. rewrite Hpass in H. unfold_M H. rewrite Hwallet in H. unfold_M H.
    destruct (truthy (Options.address options)) eqn:Htruthy.
    + destruct (Options.address options) as [a|] eqn:Hsupplied; [|done].
      exec H; (split; [done|]); intros Hname%String.eqb_neq; try congruence; registry.
    + destruct (execSync ext _) as [stdout|] eqn:Hexec; [|done].
      exec H; (split; [done|]); intros Hname%String.eqb_neq; try congruence; registry.
Qed.

Lemma processCommand_without_initialize_witness :
  Forall (λ ev, is_initialization ev = false)
    (log (processCommand Demo.world (Demo.options "axelar_its" false None None)
            Demo.config (start Demo.chain_with_auth)).2)
  ∧ (∀ name,
       (processCommand Demo.world (Demo.options "axelar_its" false None None)
          Demo.config (start Demo.chain_with_auth)).1 ≠ Throw (UnknownContract name))
  ∧ (processCommand Demo.world (Demo.options "axelar_its" false None None)
       Demo.config (start Demo.chain_with_auth)).1 = Ok tt
  ∧ record_of
      (chain (processCommand Demo.world (Demo.options "axelar_its" false None None)
                Demo.config (start Demo.chain_with_auth)).2)
      "axelar_its"
    = Some {| address := Some Demo.gateway_id;
              deployer := Some (publicKey Demo.wallet);
              initializeArgs := None |}.
Proof.
  destruct (processCommand_without_initialize Demo.world
              (Demo.options "axelar_its" false None None) Demo.config Demo.chain_with_auth
              (processCommand Demo.world (Demo.options "axelar_its" false None None)
                 Demo.config (start Demo.chain_with_auth)).1
              (processCommand Demo.world (Demo.options "axelar_its" false None None)
                 Demo.config (start Demo.chain_with_auth)).2)
    as (Hquiet & Hknown & Hrecord).
  - reflexivity.
  - reflexivity.
  - destruct (Hrecord "Test SDF Network ; September 2015" Demo.wallet eq_refl eq_refl)
      as [Hok Hrec].
    + exists Demo.gateway_id. reflexivity.
    + split_and!; [exact Hquiet | exact Hknown | exact Hok | apply Hrec; discriminate].
Defined.

(** C10, as stated, fails when the deploy binary fails: the run of an
    unrecognized identifier without [--initialize] then aborts with
    [DeploymentFailed] and records nothing under the identifier. *)
Lemma unknown_contract_deploy_failure :
  ("axelar_its" ∉ supported_names)
  ∧ Options.initialize (Demo.options "axelar_its" false None None) = false
  ∧ (processCommand Demo.world_deploy_fails (Demo.options "axelar_its" false None None)
       Demo.config (start Demo.chain_with_auth)).1 = Throw DeploymentFailed
  ∧ record_of
      (chain (processCommand Demo.world_deploy_fails
                (Demo.options "axelar_its" false None None)
                Demo.config (start Demo.chain_with_auth)).2)
      "axelar_its" = None.
Proof.
  split_and!; try by vm_compute.
  intros Hin. repeat (apply elem_of_cons in Hin as [Hin|Hin]; [discriminate Hin|]).
  by apply elem_of_nil in Hin.
Qed.

(** With [--initialize], the same identifier does reach the failure. *)
Example unknown_contract_with_initialize :
  (processCommand Demo.world (Demo.options "axelar_its" true None None)
     Demo.config (start Demo.chain_with_auth)).1 = Throw (UnknownContract "axelar_its").
Proof. by vm_compute. Qed.

Lemma new_Contract_Ok ext addr contract :
  new_Contract ext (Some addr) = Ok contract → contract = addr.
Proof. unfold new_Contract. by destruct (isValidContract ext addr); intros [=]. Qed.

(** C7.  In a run with initialization requested, the chain state handed
    to the broadcast of [initialize] already holds, in the Contract Record,
    the address, the deployer and the serialized arguments of the builder;
    if that broadcast fails, the run aborts with [RemoteCallFailed] and the
    chain state is the one the broadcast was handed: nothing is rolled
    back. *)
Theorem processCommand_records_before_initialize
    ext options config c0 r s' operation wallet c msg :
  Options.initialize options = true →
  processCommand ext options config (start c0) = (r, s') →
  EvBroadcast operation wallet c msg ∈ log s' →
  method operation = "initialize" →
  ∃ initializeArgs serializedArgs before after,
    getInitializeArgs ext config (Options.contractName options) wallet options before
    = (Ok initializeArgs, after)
    ∧ serializeArgs initializeArgs = Ok serializedArgs
    ∧ args operation = initializeArgs.*2
    ∧ record_of c (Options.contractName options)
      = Some {| address := Some (contractId operation);
                deployer := Some (publicKey wallet);
                initializeArgs := Some serializedArgs |}
    ∧ (broadcast ext operation wallet c msg options = false →
       r = Throw RemoteCallFailed ∧ chain s' = c).
Proof.
  intros Hinit H Hin Hmethod.
  unfold processCommand in H. rewrite Hinit in H.
  exec_using absorb_calls H; cbn [log] in Hin.
  all: rewrite ?elem_of_app, ?list_elem_of_singleton, ?elem_of_nil in Hin.
  all: destruct_or?; simplify_eq.
  all: try match goal with
           | Hm : _ ∈ ?evs, Hall : Forall _ ?evs |- _ =>
               rewrite Forall_forall in Hall; specialize (Hall _ Hm);
               cbn in Hall; congruence
           end.
  all: match goal with
       | Hn : new_Contract _ (Some _) = Ok _ |- _ => apply new_Contract_Ok in Hn; subst
       end.
  all: eexists _, _, _, _; split_and!; [eassumption|eassumption|reflexivity|by registry|].
  all: intros Hb; cbn [chain]; try (rewrite Hb in *; discriminate); done.
Qed.

Lemma processCommand_records_before_initialize_witness :
  (processCommand Demo.world_broadcast_fails
     (Demo.options "axelar_operators" true None None)
     Demo.config (start Demo.fresh_chain)).1 = Throw RemoteCallFailed
  ∧ ∃ initializeArgs serializedArgs,
      serializeArgs initializeArgs = Ok serializedArgs
      ∧ [scvAddress Demo.wallet_key] = initializeArgs.*2
      ∧ record_of
          (chain (processCommand Demo.world_broadcast_fails
                    (Demo.options "axelar_operators" true None None)
                    Demo.config (start Demo.fresh_chain)).2)
          "axelar_operators"
        = Some {| address := Some Demo.gateway_id;
                  deployer := Some (publicKey Demo.wallet);
                  initializeArgs := Some serializedArgs |}.
Proof.
  destruct (processCommand_records_before_initialize Demo.world_broadcast_fails
              (Demo.options "axelar_operators" true None None) Demo.config Demo.fresh_chain
              (processCommand Demo.world_broadcast_fails
                 (Demo.options "axelar_operators" true None None)
                 Demo.config (start Demo.fresh_chain)).1
              (processCommand Demo.world_broadcast_fails
                 (Demo.options "axelar_operators" true None None)
                 Demo.config (start Demo.fresh_chain)).2
              {| contractId := Demo.gateway_id; method := "initialize";
                 args := [scvAddress Demo.wallet_key] |}
              Demo.wallet
              (chain (processCommand Demo.world_broadcast_fails
                        (Demo.options "axelar_operators" true None None)
                        Demo.config (start Demo.fresh_chain)).2)
              "Initialized contract")
    as (initializeArgs & serializedArgs & before & after
        & Hbuilt & Hserialized & Hargs & Hrecord & Hfails).
  - reflexivity.
  - reflexivity.
  - vm_compute. do 7 apply list_elem_of_further. apply list_elem_of_here.
  - reflexivity.
  - split; [exact (proj1 (Hfails eq_refl))|].
    exists initializeArgs, serializedArgs. split_and!; assumption.
Defined.

(** The run of the witness, in full: the broadcast is rejected, the run
    aborts, and the record keeps what was written before the call. *)
Example failed_initialize_keeps_record :
  (processCommand Demo.world_broadcast_fails (Demo.options "axelar_operators" true None None)
     Demo.config (start Demo.fresh_chain)).1 = Throw RemoteCallFailed
  ∧ record_of
      (chain (processCommand Demo.world_broadcast_fails
                (Demo.options "axelar_operators" true None None)
                Demo.config (start Demo.fresh_chain)).2)
      "axelar_operators"
    = Some {| address := Some Demo.gateway_id;
              deployer := Some Demo.wallet_key;
              initializeArgs := Some [("owner", VString Demo.wallet_key)] |}.
Proof. split; by vm_compute. Qed.

(** * Further properties *)

(** ** The serializer *)

Lemma serializeValue_array xs :
  serializeValue (VArray xs) = rmap VArray (serialize_elements xs).
Proof. reflexivity. Qed.

Lemma serializeValue_object props :
  serializeValue (VObject props) = rmap VObject (serialize_properties props []).
Proof. reflexivity. Qed.

Lemma serialize_elements_cons x xs :
  serialize_elements (x :: xs)
  = try y := serializeValue x in try ys := serialize_elements xs in Ok (y :: ys).
Proof. reflexivity. Qed.

Lemma serialize_properties_cons key val rest acc :
  serialize_properties ((key, val) :: rest) acc
  = try w := serializeValue val in serialize_properties rest (assignProperty acc key w).
Proof. reflexivity. Qed.

Lemma serializeValue_null_verdict v : null_verdict v (serializeValue v).
Proof.
  induction v as [| |b|x|s|z|bs|xs IH|props IH] using value_nested_ind; try done.
  - rewrite serializeValue_array. cbn [has_null].
    assert (match serialize_elements xs with
            | Ok _ => existsb has_null xs = false
            | Throw e => existsb has_null xs = true ∧ e = null_entries
            end) as Hloop.
    { induction IH as [|x xs Hx _ IHxs]; [done|].
      rewrite serialize_elements_cons. cbn [existsb].
      unfold null_verdict in Hx. destruct (serializeValue x) as [y|e]; cbn [rbind].
      - rewrite Hx. cbn [orb]. by destruct (serialize_elements xs).
      - destruct Hx as [-> ->]. done. }
    unfold null_verdict, rmap. by destruct (serialize_elements xs).
  - rewrite serializeValue_object. cbn [has_null].
    assert (∀ acc, match serialize_properties props acc with
                   | Ok _ => existsb (λ kv, has_null kv.2) props = false
                   | Throw e => existsb (λ kv, has_null kv.2) props = true ∧ e = null_entries
                   end) as Hloop.
    { induction IH as [|[k x] props Hx _ IHprops]; intros acc; [done|].
      rewrite serialize_properties_cons. cbn [existsb snd].
      cbn [snd] in Hx. unfold null_verdict in Hx.
      destruct (serializeValue x) as [y|e]; cbn [rbind].
      - rewrite Hx. cbn [orb]. apply IHprops.
      - destruct Hx as [-> ->]. done. }
    specialize (Hloop []). unfold null_verdict, rmap.
    by destruct (serialize_properties props []).
Qed.

(** X1.  [serializeValue] fails on exactly the values in which [null]
    occurs, at any depth, and then with the TypeError of
    [Object.entries(null)]; on every other value it returns. *)
Theorem serializeValue_fails_iff_null (v : value) :
  match serializeValue v with
  | Ok _ => has_null v = false
  | Throw e => has_null v = true
               ∧ e = TypeError "Cannot convert undefined or null to object"
  end.
Proof. apply serializeValue_null_verdict. Qed.

Example serializeValue_null_property :
  serializeValue (VObject [("a", VArray [VObject [("__proto__", VNull)]])])
  = Throw null_entries.
Proof. reflexivity. Qed.

Lemma serialized_properties_iff props :
  serialized_properties props = true
  ↔ NoDup props.*1 ∧ enumeration_order props.*1 = true
    ∧ Forall (λ kv, kv.1 ≠ "__proto__" ∧ serialized_form kv.2 = true) props.
Proof.
  unfold serialized_properties.
  rewrite !andb_true_iff, bool_decide_eq_true, forallb_forall, Forall_forall.
  split; [intros [[Hnodup Horder] Hall]|intros (Hnodup & Horder & Hall)];
    (split_and!; [done|done|]); intros kv Hin.
  - apply list_elem_of_In, Hall in Hin. apply andb_prop in Hin as [Hk Hv].
    split; [|done]. apply negb_true_iff in Hk. by destruct (String.eqb_spec kv.1 "__proto__").
  - apply list_elem_of_In, Hall in Hin as [Hk Hv]. rewrite Hv, andb_true_r.
    apply negb_true_iff. by destruct (String.eqb_spec kv.1 "__proto__").
Qed.

(** [precedes] is a total preorder that puts the array indices first. *)
Lemma precedes_total k k' : precedes k k' = false → precedes k' k = true.
Proof.
  unfold precedes. destruct (array_index k), (array_index k'); try done.
  intros ?%N.leb_gt. apply N.leb_le. lia.
Qed.

Lemma precedes_after k key k' :
  precedes k key = false → precedes k k' = true → precedes key k' = true.
Proof.
  unfold precedes.
  destruct (array_index k), (array_index key), (array_index k'); try done.
  intros ?%N.leb_gt ?%N.leb_le. apply N.leb_le. lia.
Qed.

Lemma overwrite_keys props key v : (overwrite props key v).*1 = props.*1.
Proof.
  induction props as [|[k w] props IH]; [done|]. cbn [overwrite].
  destruct (String.eqb k key); cbn [fmap list_fmap fst] in *; by rewrite ?IH.
Qed.

Lemma overwrite_Forall (P : string * value → Prop) props key v :
  Forall P props → P (key, v) → Forall P (overwrite props key v).
Proof.
  intros Hall Hnew. induction Hall as [|[k w] props Hkw Hall IH]; cbn [overwrite]; [done|].
  destruct (String.eqb_spec k key) as [->|Hne]; by constructor.
Qed.

Lemma place_keys props key v : (place props key v).*1 ≡ₚ key :: props.*1.
Proof.
  induction props as [|[k w] props IH]; [done|]. cbn [place].
  destruct (precedes k key); [|done].
  cbn [fmap list_fmap fst] in *. rewrite IH. apply Permutation_swap.
Qed.

Lemma place_Forall (P : string * value → Prop) props key v :
  Forall P props → P (key, v) → Forall P (place props key v).
Proof.
  intros Hall Hnew. induction Hall as [|[k w] props Hkw Hall IH]; cbn [place].
  - by repeat constructor.
  - destruct (precedes k key); by repeat constructor.
Qed.

Lemma place_enumeration_order props key v :
  enumeration_order props.*1 = true → enumeration_order (place props key v).*1 = true.
Proof.
  induction props as [|[k w] props IH]; [done|].
  cbn [fmap list_fmap fst enumeration_order place]. intros [Hk Hks]%andb_prop.
  destruct (precedes k key) eqn:Hkey; cbn [fmap list_fmap fst enumeration_order forallb].
  - rewrite IH by done. rewrite andb_true_r.
    apply forallb_forall. intros k' Hk'%list_elem_of_In.
    rewrite place_keys in Hk'. apply elem_of_cons in Hk' as [->|Hk']; [done|].
    rewrite forallb_forall in Hk. by apply Hk, list_elem_of_In.
  - rewrite (precedes_total _ _ Hkey), Hk, Hks. cbn [andb]. rewrite andb_true_r.
    apply forallb_forall. intros k' Hk'.
    rewrite forallb_forall in Hk. by eapply precedes_after, Hk.
Qed.

Lemma defineProperty_serialized acc key w :
  key ≠ "__proto__" → serialized_properties acc = true → serialized_form w = true →
  serialized_properties (defineProperty acc key w) = true.
Proof.
  intros Hproto (Hnodup & Horder & Hall)%serialized_properties_iff Hw.
  apply serialized_properties_iff. unfold defineProperty.
  destruct (hasOwnProperty acc key) eqn:Hown.
  - rewrite overwrite_keys. split_and!; [done|done|]. by apply overwrite_Forall.
  - split_and!.
    + rewrite place_keys. apply NoDup_cons. split; [|done].
      rewrite <- hasOwnProperty_elem_of. by rewrite Hown.
    + by apply place_enumeration_order.
    + by apply place_Forall.
Qed.

Lemma assignProperty_serialized acc key w :
  serialized_properties acc = true → serialized_form w = true →
  serialized_properties (assignProperty acc key w) = true.
Proof.
  intros Hacc Hw. unfold assignProperty.
  destruct (String.eqb_spec key "__proto__") as [|Hproto]; [done|].
  by apply defineProperty_serialized.
Qed.

Lemma serializeValue_serialized_form v w :
  serializeValue v = Ok w → serialized_form w = true.
Proof.
  revert w.
  induction v as [| |b|x|s|z|bs|xs IH|props IH] using value_nested_ind;
    intros w Hw; try (by inversion Hw).
  - rewrite serializeValue_array in Hw.
    assert (∀ ys, serialize_elements xs = Ok ys → forallb serialized_form ys = true)
      as Hloop.
    { clear Hw. induction IH as [|x xs Hx _ IHxs]; intros ys Hys.
      - by inversion Hys.
      - rewrite serialize_elements_cons in Hys.
        destruct (serializeValue x) as [y|] eqn:Hy; [|done]. cbn [rbind] in Hys.
        destruct (serialize_elements xs) as [ys'|] eqn:Hys'; [|done]. cbn [rbind] in Hys.
        inversion Hys; subst. cbn [forallb].
        rewrite (Hx y) by done. by rewrite IHxs. }
    unfold rmap in Hw. destruct (serialize_elements xs) as [ys|]; [|done].
    inversion Hw; subst. cbn [serialized_form]. by apply Hloop.
  - rewrite serializeValue_object in Hw.
    assert (∀ acc out, serialized_properties acc = true →
                       serialize_properties props acc = Ok out →
                       serialized_properties out = true) as Hloop.
    { clear Hw. induction IH as [|[k x] props Hx _ IHprops]; intros acc out Hacc Hout.
      - by inversion Hout; subst.
      - rewrite serialize_properties_cons in Hout. cbn [snd] in Hx.
        destruct (serializeValue x) as [y|] eqn:Hy; [|done]. cbn [rbind] in Hout.
        eapply IHprops; [|done]. apply assignProperty_serialized; auto. }
    unfold rmap in Hw. destruct (serialize_properties props []) as [out|] eqn:Hout; [|done].
    inversion Hw; subst. by apply (Hloop [] out).
Qed.

Lemma serialized_form_fixed w :
  serialized_form w = true → serializeValue w = Ok w.
Proof.
  induction w as [| |b|x|s|z|bs|xs IH|props IH] using value_nested_ind;
    intros Hform; try done.
  - rewrite serializeValue_array. cbn [serialized_form] in Hform.
    assert (serialize_elements xs = Ok xs) as ->; [|done].
    induction IH as [|x xs Hx _ IHxs]; [done|].
    cbn [forallb] in Hform. apply andb_prop in Hform as [Hf Hfs].
    rewrite serialize_elements_cons, Hx by done. cbn [rbind]. by rewrite IHxs.
  - rewrite serializeValue_object.
    change (serialized_properties props = true) in Hform.
    apply serialized_properties_iff in Hform as (Hnodup & Horder & Hall).
    assert (∀ acc, NoDup (acc.*1 ++ props.*1) →
                   enumeration_order (acc.*1 ++ props.*1) = true →
                   serialize_properties props acc = Ok (acc ++ props)) as Hloop.
    { clear Hnodup Horder.
      induction IH as [|[k x] props Hx _ IHprops]; intros acc Hnodup Horder.
      - by rewrite app_nil_r.
      - apply Forall_cons in Hall as [[Hk Hv] Hall]. cbn [fst snd] in *.
        rewrite serialize_properties_cons, Hx by done. cbn [rbind].
        cbn [fmap list_fmap fst] in Hnodup, Horder.
        rewrite assignProperty_fresh; [|done| |by eapply enumeration_order_before].
        + rewrite IHprops; [by rewrite <- app_assoc|done|..];
            by rewrite fmap_app, <- app_assoc.
        + apply NoDup_app in Hnodup as (_ & Hdisj & _).
          intros Hin. apply (Hdisj k Hin). left. }
    by rewrite Hloop.
Qed.

(** X2.  Whatever [serializeValue] returns holds no bigint, no byte
    sequence and no [null], at any depth, and its objects have distinct
    keys, none of them [__proto__]. *)
Theorem serializeValue_output_form (v w : value) :
  serializeValue v = Ok w → serialized_form w = true.
Proof. apply serializeValue_serialized_form. Qed.

Lemma serializeValue_output_form_witness :
  serialized_form
    (VObject [("nonce", VString "00ff1a"); ("weights", VArray [VString "-7"; VUndefined])])
  = true.
Proof.
  apply (serializeValue_output_form
           (VObject [("nonce", VUint8Array [x00; xff; x1a]);
                     ("__proto__", VBigInt 3);
                     ("weights", VArray [VBigInt (-7); VUndefined])])).
  reflexivity.
Defined.

(** X3.  [serializeValue] is idempotent: serializing what it returned
    returns it unchanged. *)
Theorem serializeValue_idempotent (v w : value) :
  serializeValue v = Ok w → serializeValue w = Ok w.
Proof. intros Hw. by eapply serialized_form_fixed, serializeValue_serialized_form. Qed.

Lemma serializeValue_idempotent_witness :
  serializeValue
    (VObject [("nonce", VString "00ff1a"); ("weights", VArray [VString "-7"; VUndefined])])
  = Ok (VObject [("nonce", VString "00ff1a");
                 ("weights", VArray [VString "-7"; VUndefined])]).
Proof.
  apply (serializeValue_idempotent
           (VObject [("nonce", VUint8Array [x00; xff; x1a]);
                     ("__proto__", VBigInt 3);
                     ("weights", VArray [VBigInt (-7); VUndefined])])).
  reflexivity.
Defined.

(** ** The argument builder *)

(** X4.  The builder never writes the chain state, whatever it is asked
    and however it ends, and the only call it logs is the one for the domain
    separator, made for the auth verifier alone. *)
Theorem getInitializeArgs_reads_only ext config contractName wallet options s :
  chain (getInitializeArgs ext config contractName wallet options s).2 = chain s
  ∧ (log (getInitializeArgs ext config contractName wallet options s).2 = log s
     ∨ contractName = "axelar_auth_verifier"
       ∧ log (getInitializeArgs ext config contractName wallet options s).2
         = log s ++ [EvGetDomainSeparator]).
Proof.
  destruct (getInitializeArgs ext config contractName wallet options s) as [r s0] eqn:H.
  cbn [snd]. split; [by eapply getInitializeArgs_readonly|].
  unfold getInitializeArgs in H. exec H; cbn [log]; auto.
  all: right; split; [|done].
  all: by apply String.eqb_eq.
Qed.

(** X5.  When the registry holds a non-empty auth-verifier address, the
    gateway's arguments are [authAddress] then [owner], in that order, if the
    SDK accepts the address, and the build fails with the SDK's error if it
    does not; the chain state is left as it was. *)
Theorem getInitializeArgs_gateway_built ext config wallet options s auth :
  (r ← record_of (chain s) "axelar_auth_verifier"; address r) = Some auth →
  auth ≠ "" →
  getInitializeArgs ext config "axelar_gateway" wallet options s
  = (if isValidAddress ext auth
     then Ok [("authAddress", scvAddress auth); ("owner", scvAddress (publicKey wallet))]
     else Throw (InvalidAddress auth),
     s).
Proof.
  intros Hauth Hne. unfold getInitializeArgs. cbn [String.eqb Ascii.eqb Bool.eqb].
  unfold bind, getChain, lift, ret, throw. cbn beta iota.
  rewrite Hauth. rewrite (proj2 (truthy_Some auth) Hne). cbn [negb nativeToScVal_address].
  by destruct (isValidAddress ext auth).
Qed.

Lemma getInitializeArgs_gateway_built_witness :
  getInitializeArgs Demo.world Demo.config "axelar_gateway" Demo.wallet
    (Demo.options "axelar_gateway" true None None) (start Demo.chain_with_auth)
  = (if isValidAddress Demo.world Demo.auth_id
     then Ok [("authAddress", scvAddress Demo.auth_id);
              ("owner", scvAddress (publicKey Demo.wallet))]
     else Throw (InvalidAddress Demo.auth_id),
     start Demo.chain_with_auth).
Proof.
  apply getInitializeArgs_gateway_built; [reflexivity|discriminate].
Defined.

(** *** From the domain separator to the recorded arguments *)

Lemma hex_value_digit c h :
  hex_value c = Some h → (h < 16)%N ∧ hex_digit h = lower_hex c.
Proof.
  destruct c as [[] [] [] [] [] [] [] []]; vm_compute; intros [= <-]; done.
Qed.

Lemma hex_of_byte_digits h l :
  (h < 16)%N → (l < 16)%N →
  hex_of_byte (byte_of_N (16 * h + l)) = String (hex_digit h) (String (hex_digit l) "").
Proof.
  intros Hh Hl.
  assert (h ∈ (N.of_nat <$> seq 0 16)) as Hhs.
  { apply list_elem_of_fmap. exists (N.to_nat h). split; [lia|]. apply elem_of_seq. lia. }
  assert (l ∈ (N.of_nat <$> seq 0 16)) as Hls.
  { apply list_elem_of_fmap. exists (N.to_nat l). split; [lia|]. apply elem_of_seq. lia. }
  cbn in Hhs, Hls.
  repeat (apply elem_of_cons in Hhs as [->|Hhs]); [..|by apply elem_of_nil in Hhs];
    repeat (apply elem_of_cons in Hls as [->|Hls]); try (by apply elem_of_nil in Hls);
    reflexivity.
Qed.

(** Decoding hexadecimal digits and encoding the bytes again gives the
    digits back, in lower case. *)
Lemma toString_hex_parse_hex digits :
  ∀ bs, parse_hex digits = Some bs → toString_hex bs = lowercase_hex digits.
Proof.
  assert (∀ n digits, (String.length digits ≤ n)%nat →
            ∀ bs, parse_hex digits = Some bs → toString_hex bs = lowercase_hex digits)
    as Hall; [|by eapply Hall].
  clear digits. induction n as [|n IH]; intros digits Hlen bs Hparse.
  - destruct digits; [|cbn in Hlen; lia]. by inversion Hparse.
  - destruct digits as [|hi [|lo rest]]; [by inversion Hparse|done|].
    cbn [parse_hex] in Hparse.
    destruct (hex_value hi) as [h|] eqn:Hhi; [|done].
    destruct (hex_value lo) as [l|] eqn:Hlo; [|done].
    destruct (parse_hex rest) as [bs'|] eqn:Hrest; [|done].
    cbn in Hparse. inversion Hparse; subst. clear Hparse.
    apply hex_value_digit in Hhi as [Hh Hhd], Hlo as [Hl Hld].
    cbn [toString_hex lowercase_hex].
    rewrite hex_of_byte_digits, Hhd, Hld by done.
    change (String (lower_hex hi) (String (lower_hex lo) (toString_hex bs'))
            = String (lower_hex hi) (String (lower_hex lo) (lowercase_hex rest))).
    f_equal. f_equal. apply IH; [cbn in Hlen; lia|done].
Qed.

Lemma arrayify_Ok s bs :
  arrayify s = Ok bs → ∃ digits, s = "0x" +:+ digits ∧ parse_hex digits = Some bs.
Proof.
  unfold arrayify. intros H.
  destruct s as [|c0 [|c1 digits]]; [done| |].
  - destruct c0 as [[] [] [] [] [] [] [] []]; done.
  - destruct c0 as [[] [] [] [] [] [] [] []]; try done.
    destruct c1 as [[] [] [] [] [] [] [] []]; try done.
    exists digits. split; [done|]. by destruct (parse_hex digits); inversion H.
Qed.

(** X6.  What a successful auth-verifier build leaves for the config: the
    owner as the wallet's address; the retention 15 and the rotation delay 0
    as the decimal strings of 64-bit integers; the domain separator as the
    hexadecimal digits [getDomainSeparator] returned, in lower case and
    without the [0x] prefix; the signer set as a one-element array.  The
    keys keep the order of the builder. *)
Theorem serializeArgs_auth_verifier ext config wallet options s args s' serializedArgs :
  getInitializeArgs ext config "axelar_auth_verifier" wallet options s = (Ok args, s') →
  serializeArgs args = Ok serializedArgs →
  ∃ digits signerSet,
    getDomainSeparator ext config (chain s) options = Some ("0x" +:+ digits)
    ∧ serializedArgs
      = [("owner", VString (publicKey wallet));
         ("previousSignersRetention", VString "15");
         ("domainSeparator", VString (lowercase_hex digits));
         ("minimumRotationDelay", VString "0");
         ("initialSigners", VArray [signerSet])].
Proof.
  intros H Hser. unfold getInitializeArgs in H.
  cbn [String.eqb Ascii.eqb Bool.eqb] in H. exec H.
  all: match goal with
       | Ha : arrayify _ = Ok ?bs, Hs : serializeArgs _ = _ |- _ =>
           apply arrayify_Ok in Ha as (digits & -> & Hdigits);
           apply toString_hex_parse_hex in Hdigits;
           unfold serializeArgs, rmap in Hs;
           cbn [serialize_entries scValToNative nativeToScVal_number List.map
                  serializeValue rbind] in Hs;
           rewrite Hdigits in Hs
       end.
  all: match type of Hser with
       | context [serializeValue ?v] => destruct (serializeValue v) as [w|]; [|done]
       end.
  all: cbn [rbind] in Hser; inversion Hser; subst.
  all: by eexists _, _.
Qed.

Lemma serializeArgs_auth_verifier_witness :
  ∃ digits signerSet,
    getDomainSeparator Demo.world Demo.config (chain (start Demo.fresh_chain))
      (Demo.options "axelar_auth_verifier" true None None)
    = Some ("0x" +:+ digits)
    ∧ [("owner", VString Demo.wallet_key);
       ("previousSignersRetention", VString "15");
       ("domainSeparator",
        VString "1111111111111111111111111111111111111111111111111111111111111111");
       ("minimumRotationDelay", VString "0");
       ("initialSigners",
        VArray [VObject
                  [("nonce",
                    VString "0000000000000000000000000000000000000000000000000000000000000000");
                   ("signers", VArray [VObject [("signer", VString Demo.wallet_key);
                                                ("weight", VString "1")]]);
                   ("threshold", VString "1")]])]
      = [("owner", VString (publicKey Demo.wallet));
         ("previousSignersRetention", VString "15");
         ("domainSeparator", VString (lowercase_hex digits));
         ("minimumRotationDelay", VString "0");
         ("initialSigners", VArray [signerSet])].
Proof.
  apply (serializeArgs_auth_verifier Demo.world Demo.config Demo.wallet
           (Demo.options "axelar_auth_verifier" true None None)
           (start Demo.fresh_chain) (Demo.auth_args (replicate 32 x00))
           {| chain := Demo.fresh_chain; log := [EvGetDomainSeparator]; prototype := None |}).
  - vm_compute. reflexivity.
  - vm_compute. reflexivity.
Defined.

(** ** The orchestrator *)

(** Splits a run into its outcome and final state, and executes it. *)
Ltac run_cases H :=
  match goal with
  | |- context [processCommand ?ext ?options ?config ?s] =>
      let r := fresh "r" in
      let s' := fresh "s'" in
      destruct (processCommand ext options config s) as [r s'] eqn:H;
      cbn [fst snd]; unfold processCommand in H
  end.

Lemma record_of_insert_ne (c : Chain) cs name other record :
  other ≠ name →
  record_of {| rpc := rpc c; networkType := networkType c;
               contracts := Some (<[name := record]> cs) |} other
  = cs !! other.
Proof. intros Hne. unfold record_of. cbn. by rewrite lookup_insert_ne. Qed.

Lemma processCommand_keeps_endpoint ext options config c0 :
  rpc (chain (processCommand ext options config (start c0)).2) = rpc c0
  ∧ networkType (chain (processCommand ext options config (start c0)).2) = networkType c0.
Proof. run_cases H. by exec_using absorb_calls H; cbn [chain rpc networkType]. Qed.

Lemma processCommand_frame ext options config c0 other :
  other ≠ Options.contractName options →
  record_of (chain (processCommand ext options config (start c0)).2) other
  = record_of c0 other.
Proof.
  intros Hother. run_cases H.
  exec_using absorb_calls H; cbn [chain rpc networkType].
  all: unfold record_of; cbn [contracts mbind option_bind];
    rewrite ?lookup_insert_ne by done;
    try match goal with Hc : contracts _ = _ |- _ => rewrite Hc end;
    cbn [default from_option Datatypes.id mbind option_bind]; try done.
  all: by rewrite ?lookup_empty.
Qed.

Lemma processCommand_keeps_prototype ext options config c0 :
  Options.contractName options ≠ "__proto__" →
  prototype (processCommand ext options config (start c0)).2 = None.
Proof.
  intros Hname%String.eqb_neq. run_cases H. unfold_M H. rewrite Hname in H.
  by exec_using absorb_calls H; cbn [prototype].
Qed.

(** X7.  A run for an identifier other than [__proto__] writes the record
    of its own identifier and nothing else: the record of every other
    identifier, the RPC endpoint, the network type and the prototype of the
    registry are, at the end of the run, what they were. *)
Theorem processCommand_touches_one_record ext options config c0 other :
  Options.contractName options ≠ "__proto__" →
  other ≠ Options.contractName options →
  record_of (chain (processCommand ext options config (start c0)).2) other
  = record_of c0 other
  ∧ rpc (chain (processCommand ext options config (start c0)).2) = rpc c0
  ∧ networkType (chain (processCommand ext options config (start c0)).2) = networkType c0
  ∧ prototype (processCommand ext options config (start c0)).2 = prototype (start c0).
Proof.
  intros Hname Hother. split_and!.
  - by apply processCommand_frame.
  - apply processCommand_keeps_endpoint.
  - apply processCommand_keeps_endpoint.
  - by apply processCommand_keeps_prototype.
Qed.

Lemma processCommand_touches_one_record_witness :
  record_of
    (chain (processCommand Demo.world (Demo.options "axelar_gateway" true None None)
              Demo.config (start Demo.chain_with_auth)).2)
    "axelar_auth_verifier"
  = record_of Demo.chain_with_auth "axelar_auth_verifier"
  ∧ rpc (chain (processCommand Demo.world (Demo.options "axelar_gateway" true None None)
                  Demo.config (start Demo.chain_with_auth)).2)
    = rpc Demo.chain_with_auth
  ∧ networkType
      (chain (processCommand Demo.world (Demo.options "axelar_gateway" true None None)
                Demo.config (start Demo.chain_with_auth)).2)
    = networkType Demo.chain_with_auth
  ∧ prototype (processCommand Demo.world (Demo.options "axelar_gateway" true None None)
                 Demo.config (start Demo.chain_with_auth)).2
    = prototype (start Demo.chain_with_auth).
Proof.
  apply (processCommand_touches_one_record Demo.world
           (Demo.options "axelar_gateway" true None None) Demo.config Demo.chain_with_auth);
    discriminate.
Defined.

(** X8.  When the network passphrase or the wallet cannot be resolved, the
    run fails with the collaborator's failure before anything else happens:
    the chain state is untouched, and the deploy binary is not invoked. *)
Theorem processCommand_unresolved ext options config c0 :
  getNetworkPassphrase ext (networkType c0) = None ∨ getWallet ext c0 options = None →
  (∃ callee, (processCommand ext options config (start c0)).1
             = Throw (CollaboratorFailed callee))
  ∧ chain (processCommand ext options config (start c0)).2 = c0
  ∧ Forall (λ ev, is_ExecSync ev = false ∧ is_initialization ev = false)
      (log (processCommand ext options config (start c0)).2).
Proof.
  intros Hfail. run_cases H. unfold_M H.
  destruct (getNetworkPassphrase ext (networkType c0)) as [passphrase|]; unfold_M H.
  - destruct Hfail as [|Hwallet]; [done|]. rewrite Hwallet in H. unfold_M H.
    simplify_eq. split_and!; [by eexists|done|]. by repeat constructor.
  - simplify_eq. split_and!; [by eexists|done|]. by repeat constructor.
Qed.

Lemma processCommand_unresolved_witness :
  (∃ callee,
     (processCommand Demo.world (Demo.options "axelar_operators" true None None) Demo.config
        (start {| rpc := "http://localhost:8000"; networkType := "devnet";
                  contracts := None |})).1
     = Throw (CollaboratorFailed callee))
  ∧ chain (processCommand Demo.world (Demo.options "axelar_operators" true None None)
             Demo.config
             (start {| rpc := "http://localhost:8000"; networkType := "devnet";
                       contracts := None |})).2
    = {| rpc := "http://localhost:8000"; networkType := "devnet"; contracts := None |}
  ∧ Forall (λ ev, is_ExecSync ev = false ∧ is_initialization ev = false)
      (log (processCommand Demo.world (Demo.options "axelar_operators" true None None)
              Demo.config
              (start {| rpc := "http://localhost:8000"; networkType := "devnet";
                        contracts := None |})).2).
Proof.
  apply (processCommand_unresolved Demo.world (Demo.options "axelar_operators" true None None)
           Demo.config
           {| rpc := "http://localhost:8000"; networkType := "devnet"; contracts := None |}).
  left. reflexivity.
Defined.

(** X9.  When the deploy binary fails, the run fails with
    [DeploymentFailed] and records nothing: every identifier has the record
    it had, the only trace in the chain state being the registry created
    when there was none; no argument is built and nothing is broadcast. *)
Theorem processCommand_deploy_failed ext options config c0 passphrase wallet :
  getNetworkPassphrase ext (networkType c0) = Some passphrase →
  getWallet ext c0 options = Some wallet →
  truthy (Options.address options) = false →
  execSync ext (deploy_command options c0 passphrase) = None →
  (processCommand ext options config (start c0)).1 = Throw DeploymentFailed
  ∧ chain (processCommand ext options config (start c0)).2
    = {| rpc := rpc c0; networkType := networkType c0;
         contracts := Some (default ∅ (contracts c0)) |}
  ∧ (∀ name, record_of (chain (processCommand ext options config (start c0)).2) name
             = record_of c0 name)
  ∧ Forall (λ ev, is_initialization ev = false)
      (log (processCommand ext options config (start c0)).2).
Proof.
  intros Hpass Hwallet Haddr Hexec. run_cases H.
  unfold_M H. rewrite Hpass in H. unfold_M H. rewrite Hwallet in H. unfold_M H.
  rewrite Haddr in H. unfold_M H.
  destruct c0 as [rpc0 net0 [cs|]]; unfold_M H; cbn [rpc networkType contracts] in Hexec;
    rewrite Hexec in H; unfold_M H; simplify_eq; cbn [chain log].
  all: split_and!; [done|done| |by repeat constructor].
  all: intros name; unfold record_of; cbn; by rewrite ?lookup_empty.
Qed.

Lemma processCommand_deploy_failed_witness :
  (processCommand Demo.world_deploy_fails (Demo.options "axelar_operators" true None None)
     Demo.config (start Demo.fresh_chain)).1 = Throw DeploymentFailed
  ∧ chain (processCommand Demo.world_deploy_fails
             (Demo.options "axelar_operators" true None None)
             Demo.config (start Demo.fresh_chain)).2
    = {| rpc := rpc Demo.fresh_chain; networkType := networkType Demo.fresh_chain;
         contracts := Some (default ∅ (contracts Demo.fresh_chain)) |}
  ∧ (∀ name,
       record_of (chain (processCommand Demo.world_deploy_fails
                           (Demo.options "axelar_operators" true None None)
                           Demo.config (start Demo.fresh_chain)).2) name
       = record_of Demo.fresh_chain name)
  ∧ Forall (λ ev, is_initialization ev = false)
      (log (processCommand Demo.world_deploy_fails
              (Demo.options "axelar_operators" true None None)
              Demo.config (start Demo.fresh_chain)).2).
Proof.
  apply (processCommand_deploy_failed Demo.world_deploy_fails
           (Demo.options "axelar_operators" true None None) Demo.config Demo.fresh_chain
           "Test SDF Network ; September 2015" Demo.wallet);
    reflexivity.
Defined.

Lemma recorded_address_cases ext options c passphrase addr :
  recorded_address ext options c passphrase = Some addr →
  (truthy (Options.address options) = true ∧ Options.address options = Some addr)
  ∨ (truthy (Options.address options) = false
     ∧ ∃ stdout, execSync ext (deploy_command options c passphrase) = Some stdout
                 ∧ addr = trimEnd stdout).
Proof.
  unfold recorded_address. destruct (truthy (Options.address options)); [by left|].
  destruct (execSync ext _) as [stdout|]; [|done]. intros [= <-]. right. eauto.
Qed.

(** Brings a run to the point where the record is written. *)
Ltac to_recording H Hpass Hwallet Haddr :=
  unfold_M H; rewrite Hpass in H; unfold_M H; rewrite Hwallet in H; unfold_M H;
  apply recorded_address_cases in Haddr as [[Htruthy Haddr]|(Htruthy & stdout & Hexec & ->)];
  rewrite Htruthy in H; unfold_M H;
  [rewrite Haddr in H|]; unfold_M H.

Lemma processCommand_recorded ext options config c0 passphrase wallet addr :
  Options.contractName options ≠ "__proto__" →
  getNetworkPassphrase ext (networkType c0) = Some passphrase →
  getWallet ext c0 options = Some wallet →
  recorded_address ext options c0 passphrase = Some addr →
  ∃ record,
    record_of (chain (processCommand ext options config (start c0)).2)
      (Options.contractName options) = Some record
    ∧ address record = Some addr
    ∧ deployer record = Some (publicKey wallet)
    ∧ (is_Some (initializeArgs record) → Options.initialize options = true).
Proof.
  intros Hname%String.eqb_neq Hpass Hwallet Haddr. run_cases H.
  unfold_M H. rewrite Hname in H.
  to_recording H Hpass Hwallet Haddr.
  all: destruct c0 as [rpc0 net0 [cs|]]; cbn [rpc networkType contracts] in *;
    try (rewrite Hexec in H).
  all: exec_using absorb_calls H; registry.
  all: eexists; split_and!; try done; cbn [initializeArgs]; try by intros [? [=]].
  all: intros _; by destruct (Options.initialize options).
Qed.

(** X10.  Once the passphrase and the wallet are resolved and an address is
    at hand (the [--address] option, or the stdout of a successful deploy),
    the record of the identifier holds that address and the wallet's public
    key as deployer at the end of the run, for every identifier but
    [__proto__], with or without [--initialize], and however the run ends; it
    holds [initializeArgs] only if initialization was requested. *)
Theorem processCommand_records_deployment ext options config c0 passphrase wallet addr :
  Options.contractName options ≠ "__proto__" →
  getNetworkPassphrase ext (networkType c0) = Some passphrase →
  getWallet ext c0 options = Some wallet →
  recorded_address ext options c0 passphrase = Some addr →
  ∃ record,
    record_of (chain (processCommand ext options config (start c0)).2)
      (Options.contractName options) = Some record
    ∧ address record = Some addr
    ∧ deployer record = Some (publicKey wallet)
    ∧ (is_Some (initializeArgs record) → Options.initialize options = true).
Proof. apply processCommand_recorded. Qed.

Lemma processCommand_records_deployment_witness :
  ∃ record,
    record_of
      (chain (processCommand Demo.world_broadcast_fails
                (Demo.options "axelar_gateway" true None None)
                Demo.config (start Demo.chain_with_auth)).2)
      (Options.contractName (Demo.options "axelar_gateway" true None None)) = Some record
    ∧ address record = Some Demo.gateway_id
    ∧ deployer record = Some (publicKey Demo.wallet)
    ∧ (is_Some (initializeArgs record) →
       Options.initialize (Demo.options "axelar_gateway" true None None) = true).
Proof.
  apply (processCommand_records_deployment Demo.world_broadcast_fails
           (Demo.options "axelar_gateway" true None None) Demo.config Demo.chain_with_auth
           "Test SDF Network ; September 2015" Demo.wallet Demo.gateway_id);
    [discriminate|reflexivity..].
Defined.

(** X11.  An unrecognized identifier is rejected only after the deployment:
    with [--initialize], once the passphrase and the wallet are resolved and
    an address is at hand, the run fails with [UnknownContract], having
    invoked the deploy binary when no address was supplied and, for an
    identifier other than [__proto__], having recorded address and deployer,
    without [initializeArgs]; nothing is broadcast. *)
Theorem processCommand_unknown_after_deploy ext options config c0 passphrase wallet addr :
  Options.initialize options = true →
  Options.contractName options ∉ supported_names →
  getNetworkPassphrase ext (networkType c0) = Some passphrase →
  getWallet ext c0 options = Some wallet →
  recorded_address ext options c0 passphrase = Some addr →
  (processCommand ext options config (start c0)).1
  = Throw (UnknownContract (Options.contractName options))
  ∧ (Options.contractName options ≠ "__proto__" →
     record_of (chain (processCommand ext options config (start c0)).2)
       (Options.contractName options)
     = Some {| address := Some addr; deployer := Some (publicKey wallet);
               initializeArgs := None |})
  ∧ (truthy (Options.address options) = false →
     EvExecSync (deploy_command options c0 passphrase)
     ∈ log (processCommand ext options config (start c0)).2)
  ∧ Forall (λ ev, is_Broadcast ev = false)
      (log (processCommand ext options config (start c0)).2).
Proof.
  intros Hinit Hname Hpass Hwallet Haddr. run_cases H.
  rewrite Hinit in H. to_recording H Hpass Hwallet Haddr.
  all: destruct c0 as [rpc0 net0 [cs|]]; cbn [rpc networkType contracts] in *;
    try (rewrite Hexec in H).
  all: exec_using ltac:(fun H => rewrite getInitializeArgs_unsupported in H by done) H.
  all: cbn [chain log]; split_and!;
    [done | intros Hproto%String.eqb_neq; try congruence; by registry
    | intros ?; try congruence | by repeat constructor].
  all: rewrite !elem_of_app, !list_elem_of_singleton; auto.
Qed.

Lemma processCommand_unknown_after_deploy_witness :
  (processCommand Demo.world (Demo.options "axelar_its" true None None)
     Demo.config (start Demo.fresh_chain)).1
  = Throw (UnknownContract (Options.contractName (Demo.options "axelar_its" true None None)))
  ∧ record_of
      (chain (processCommand Demo.world (Demo.options "axelar_its" true None None)
                Demo.config (start Demo.fresh_chain)).2)
      (Options.contractName (Demo.options "axelar_its" true None None))
    = Some {| address := Some Demo.gateway_id; deployer := Some (publicKey Demo.wallet);
              initializeArgs := None |}
  ∧ (truthy (Options.address (Demo.options "axelar_its" true None None)) = false →
     EvExecSync (deploy_command (Demo.options "axelar_its" true None None) Demo.fresh_chain
                   "Test SDF Network ; September 2015")
     ∈ log (processCommand Demo.world (Demo.options "axelar_its" true None None)
              Demo.config (start Demo.fresh_chain)).2)
  ∧ Forall (λ ev, is_Broadcast ev = false)
      (log (processCommand Demo.world (Demo.options "axelar_its" true None None)
              Demo.config (start Demo.fresh_chain)).2).
Proof.
  destruct (processCommand_unknown_after_deploy Demo.world
              (Demo.options "axelar_its" true None None) Demo.config Demo.fresh_chain
              "Test SDF Network ; September 2015" Demo.wallet Demo.gateway_id)
    as (Hfails & Hrecord & Hdeployed & Hquiet); try reflexivity.
  - intros Hin. repeat (apply elem_of_cons in Hin as [Hin|Hin]; [discriminate Hin|]).
    by apply elem_of_nil in Hin.
  - split_and!; [exact Hfails | apply Hrecord; discriminate | exact Hdeployed | exact Hquiet].
Defined.

(** X12.  A gateway is deployed before its dependency is checked: with
    [--initialize] and no auth-verifier address in the registry, the run
    fails with [MissingDependency] after it has recorded the gateway's
    address and deployer; the domain separator is not asked for and nothing
    is broadcast. *)
Theorem processCommand_gateway_without_verifier
    ext options config c0 passphrase wallet addr :
  Options.contractName options = "axelar_gateway" →
  Options.initialize options = true →
  truthy (r ← record_of c0 "axelar_auth_verifier"; address r) = false →
  getNetworkPassphrase ext (networkType c0) = Some passphrase →
  getWallet ext c0 options = Some wallet →
  recorded_address ext options c0 passphrase = Some addr →
  (processCommand ext options config (start c0)).1 = Throw MissingDependency
  ∧ record_of (chain (processCommand ext options config (start c0)).2) "axelar_gateway"
    = Some {| address := Some addr; deployer := Some (publicKey wallet);
              initializeArgs := None |}
  ∧ Forall (λ ev, is_Broadcast ev = false ∧ ev ≠ EvGetDomainSeparator)
      (log (processCommand ext options config (start c0)).2).
Proof.
  intros Hname Hinit Hauth Hpass Hwallet Haddr. run_cases H.
  rewrite Hinit, Hname in H. to_recording H Hpass Hwallet Haddr.
  all: destruct c0 as [rpc0 net0 [cs|]]; cbn [rpc networkType contracts] in *;
    try (rewrite Hexec in H).
  all: unfold_M H; rewrite getInitializeArgs_gateway_falsy in H;
    [|cbn [chain]; unfold record_of in *; cbn in *;
      rewrite ?lookup_insert_ne, ?lookup_empty by done; done].
  all: simplify_eq; cbn [chain log]; split_and!; [done | by registry |].
  all: by repeat constructor.
Qed.

Lemma processCommand_gateway_without_verifier_witness :
  (processCommand Demo.world (Demo.options "axelar_gateway" true None None)
     Demo.config (start Demo.fresh_chain)).1 = Throw MissingDependency
  ∧ record_of
      (chain (processCommand Demo.world (Demo.options "axelar_gateway" true None None)
                Demo.config (start Demo.fresh_chain)).2)
      "axelar_gateway"
    = Some {| address := Some Demo.gateway_id; deployer := Some (publicKey Demo.wallet);
              initializeArgs := None |}
  ∧ Forall (λ ev, is_Broadcast ev = false ∧ ev ≠ EvGetDomainSeparator)
      (log (processCommand Demo.world (Demo.options "axelar_gateway" true None None)
              Demo.config (start Demo.fresh_chain)).2).
Proof.
  apply (processCommand_gateway_without_verifier Demo.world
           (Demo.options "axelar_gateway" true None None) Demo.config Demo.fresh_chain
           "Test SDF Network ; September 2015" Demo.wallet Demo.gateway_id);
    reflexivity.
Defined.

(** *** The gateway's post-deploy hook *)

Lemma nativeToScVal_address_Throw ext addr e :
  nativeToScVal_address ext addr = Throw e → ∃ a, addr = Some a ∧ e = InvalidAddress a.
Proof.
  destruct addr as [a|]; [|done]. cbn.
  destruct (isValidAddress ext a); [done|]. intros [= <-]. eauto.
Qed.

Lemma new_Contract_Throw ext addr e :
  new_Contract ext addr = Throw e → ∃ a, e = InvalidContractId a.
Proof.
  destruct addr as [a|]; cbn; [destruct (isValidContract ext a)|]; intros [= <-]; eauto.
Qed.

Lemma postDeployGateway_cases ext wallet options s r s' :
  postDeployGateway ext wallet options s = (r, s') →
  chain s' = chain s
  ∧ ((∃ e, r = Throw e ∧ e ≠ RemoteCallFailed
           ∧ log s' = log s ++ [EvPrintInfo "Transferring ownership of auth contract to the gateway"])
     ∨ ∃ authRecord gatewayRecord auth gateway,
         record_of (chain s) "axelar_auth_verifier" = Some authRecord
         ∧ record_of (chain s) "axelar_gateway" = Some gatewayRecord
         ∧ new_Contract ext (address authRecord) = Ok auth
         ∧ nativeToScVal_address ext (address gatewayRecord) = Ok gateway
         ∧ log s'
           = log s ++ [EvPrintInfo "Transferring ownership of auth contract to the gateway";
                       EvBroadcast {| contractId := auth; method := "transfer_ownership";
                                      args := [gateway] |}
                                   wallet (chain s) "Transferred ownership"]
         ∧ r = if broadcast ext {| contractId := auth; method := "transfer_ownership";
                                   args := [gateway] |}
                            wallet (chain s) "Transferred ownership" options
               then Ok tt else Throw RemoteCallFailed).
Proof.
  intros H. split; [by eapply postDeployGateway_readonly|].
  unfold postDeployGateway in H. unfold settled in H. exec H; cbn [chain log].
  all: try match goal with
           | Ha : nativeToScVal_address _ _ = Throw _ |- _ =>
               apply nativeToScVal_address_Throw in Ha as (? & ? & ->)
           | Hc : new_Contract _ _ = Throw _ |- _ =>
               apply new_Contract_Throw in Hc as (? & ->)
           end.
  all: try (left; eexists; split_and!; [done|done|done]).
  all: right; eexists _, _, _, _; split_and!;
    [unfold record_of; rewrite Heqo; cbn; eassumption
    | unfold record_of; rewrite Heqo; cbn; eassumption
    | eassumption | eassumption | by rewrite <- app_assoc | ].
  all: by match goal with Hb : broadcast _ _ _ _ _ _ = _ |- _ => rewrite Hb end.
Qed.

(** X13.  The gateway hook never writes the chain state and broadcasts at
    most once.  What it broadcasts is [transfer_ownership], called on the
    contract at the auth verifier's recorded address with the gateway's
    recorded address as its only argument, and it succeeds exactly when that
    broadcast is accepted; if a record is missing or an address is rejected
    by the SDK, it fails before anything is broadcast. *)
Theorem postDeployGateway_transfers_ownership ext wallet options s :
  chain (postDeployGateway ext wallet options s).2 = chain s
  ∧ ((∃ e, (postDeployGateway ext wallet options s).1 = Throw e
           ∧ e ≠ RemoteCallFailed
           ∧ Forall (λ ev, is_Broadcast ev = false)
               (drop (length (log s)) (log (postDeployGateway ext wallet options s).2)))
     ∨ ∃ authRecord gatewayRecord auth gateway,
         record_of (chain s) "axelar_auth_verifier" = Some authRecord
         ∧ record_of (chain s) "axelar_gateway" = Some gatewayRecord
         ∧ new_Contract ext (address authRecord) = Ok auth
         ∧ nativeToScVal_address ext (address gatewayRecord) = Ok gateway
         ∧ drop (length (log s)) (log (postDeployGateway ext wallet options s).2)
           = [EvPrintInfo "Transferring ownership of auth contract to the gateway";
              EvBroadcast {| contractId := auth; method := "transfer_ownership";
                             args := [gateway] |}
                          wallet (chain s) "Transferred ownership"]
         ∧ (postDeployGateway ext wallet options s).1
           = if broadcast ext {| contractId := auth; method := "transfer_ownership";
                                 args := [gateway] |}
                          wallet (chain s) "Transferred ownership" options
             then Ok tt else Throw RemoteCallFailed).
Proof.
  destruct (postDeployGateway ext wallet options s) as [r s'] eqn:H. cbn [fst snd].
  apply postDeployGateway_cases in H as [Hchain Hcases]. split; [done|].
  destruct Hcases as [(e & -> & He & Hlog)
                     |(authRecord & gatewayRecord & auth & gateway
                       & Hauth & Hgateway & Hcontract & Haddr & Hlog & Hr)].
  - left. exists e. split_and!; [done|done|].
    rewrite Hlog, drop_app_length. by repeat constructor.
  - right. exists authRecord, gatewayRecord, auth, gateway.
    split_and!; try done. by rewrite Hlog, drop_app_length.
Qed.

(** *** A gateway run that succeeds *)

Lemma getInitializeArgs_gateway_Ok ext config wallet options s args s' :
  getInitializeArgs ext config "axelar_gateway" wallet options s = (Ok args, s') →
  ∃ auth,
    (r ← record_of (chain s) "axelar_auth_verifier"; address r) = Some auth
    ∧ isValidAddress ext auth = true
    ∧ args = [("authAddress", scvAddress auth); ("owner", scvAddress (publicKey wallet))].
Proof.
  intros H. unfold getInitializeArgs in H. cbn [String.eqb Ascii.eqb Bool.eqb] in H.
  unfold_M H.
  destruct (r ← record_of (chain s) "axelar_auth_verifier"; address r) as [auth|] eqn:Hauth;
    [|done].
  destruct (truthy (Some auth)); unfold_M H; [|done].
  cbn [nativeToScVal_address] in H.
  destruct (isValidAddress ext auth) eqn:Hvalid; unfold_M H; [|done].
  simplify_eq. eauto.
Qed.

Lemma record_of_other (c0 : Chain) name other record :
  other ≠ name →
  record_of {| rpc := rpc c0; networkType := networkType c0;
               contracts := Some (<[name := record]> (default ∅ (contracts c0))) |} other
  = record_of c0 other.
Proof.
  intros Hne. unfold record_of. cbn. rewrite lookup_insert_ne by done.
  destruct (contracts c0); cbn; [done|by rewrite lookup_empty].
Qed.

Lemma serializeArgs_gateway auth key :
  serializeArgs [("authAddress", scvAddress auth); ("owner", scvAddress key)]
  = Ok [("authAddress", VString auth); ("owner", VString key)].
Proof. reflexivity. Qed.

Lemma nativeToScVal_address_Ok ext addr scv :
  nativeToScVal_address ext (Some addr) = Ok scv → scv = scvAddress addr.
Proof. cbn. by destruct (isValidAddress ext addr); intros [=]. Qed.

Lemma log_tail {A} (l : list A) a b c d e :
  (((l ++ [a]) ++ [b]) ++ [c; d]) ++ [e] = l ++ [a; b; c; d; e].
Proof. by rewrite <- !app_assoc. Qed.

(** X14.  A gateway run with [--initialize] that succeeds has initialized
    the gateway with the auth verifier's recorded address and the wallet's
    address, in that order, and has then transferred the ownership of the
    auth verifier to the gateway's address: these two broadcasts are the
    only ones of the run and end its log, and the gateway's record holds the
    two arguments as strings. *)
Theorem processCommand_gateway_success ext options config c0 :
  Options.contractName options = "axelar_gateway" →
  Options.initialize options = true →
  (processCommand ext options config (start c0)).1 = Ok tt →
  ∃ passphrase wallet addr auth events,
    getNetworkPassphrase ext (networkType c0) = Some passphrase
    ∧ getWallet ext c0 options = Some wallet
    ∧ recorded_address ext options c0 passphrase = Some addr
    ∧ (r ← record_of c0 "axelar_auth_verifier"; address r) = Some auth
    ∧ record_of (chain (processCommand ext options config (start c0)).2) "axelar_gateway"
      = Some {| address := Some addr; deployer := Some (publicKey wallet);
                initializeArgs := Some [("authAddress", VString auth);
                                        ("owner", VString (publicKey wallet))] |}
    ∧ log (processCommand ext options config (start c0)).2
      = events
        ++ [EvBroadcast {| contractId := addr; method := "initialize";
                           args := [scvAddress auth; scvAddress (publicKey wallet)] |}
                        wallet (chain (processCommand ext options config (start c0)).2)
                        "Initialized contract";
            EvPostDeploy "axelar_gateway";
            EvPrintInfo "Transferring ownership of auth contract to the gateway";
            EvBroadcast {| contractId := auth; method := "transfer_ownership";
                           args := [scvAddress addr] |}
                        wallet (chain (processCommand ext options config (start c0)).2)
                        "Transferred ownership";
            EvPrintInfo "Post deployment setup executed"]
    ∧ Forall (λ ev, is_Broadcast ev = false) events.
Proof.
  intros Hname Hinit Hok.
  destruct (processCommand ext options config (start c0)) as [r s'] eqn:H.
  cbn [fst snd] in *. subst r.
  unfold processCommand in H. rewrite Hname, Hinit in H.
  exec_using absorb_calls H.
  all: match goal with
       | Hg : getInitializeArgs _ _ _ _ _ _ = _ |- _ =>
           apply getInitializeArgs_gateway_Ok in Hg as (auth & Hauth & Hvalid & ->)
       end.
  all: match goal with
       | Hs : serializeArgs _ = _ |- _ => rewrite serializeArgs_gateway in Hs; simplify_eq
       end.
  all: match goal with
       | Hp : postDeployGateway _ _ _ _ = _ |- _ =>
           apply postDeployGateway_cases in Hp
             as [_ [(e & [=] & _)
                   |(authRecord & gatewayRecord & auth' & gateway
                     & Ha & Hg & Hc & Hn & Hlog & _)]]
       end.
  all: cbn [chain log] in *.
  all: apply app_inv_head in Hlog; subst evs0.
  all: unfold record_of in Hauth, Ha, Hg; cbn [contracts mbind option_bind] in Hauth, Ha, Hg;
    rewrite lookup_insert_ne in Hauth by done; rewrite !lookup_insert_ne in Ha by done;
    rewrite lookup_insert_eq in Hg; injection Hg as <-; cbn [address] in Hn;
    rewrite Ha in Hauth; cbn [mbind option_bind] in Hauth; rewrite Hauth in Hc;
    apply new_Contract_Ok in Hc as ->; apply nativeToScVal_address_Ok in Hn as ->.
  all: match goal with
       | Hn : new_Contract _ (Some _) = Ok _ |- _ => apply new_Contract_Ok in Hn as ->
       end.
  all: eexists _, _, _, auth, _; split_and!;
    [ reflexivity | reflexivity | | | by registry | rewrite log_tail; reflexivity | ].
  all: try match goal with
           | Hc : contracts _ = Some _ |- record_of _ _ ≫= _ = _ =>
               unfold record_of; rewrite Hc in *;
               cbn [mbind option_bind default from_option Datatypes.id] in *;
               rewrite Ha; exact Hauth
           end.
  all: try (unfold recorded_address; rewrite Heqb;
            first [ by destruct (Options.address options)
                  | erewrite Heqo2; reflexivity ]).
  all: rewrite !Forall_app; split_and!; try by repeat constructor.
  all: eapply Forall_impl; [eassumption|]; by intros ? ->.
Qed.

Lemma processCommand_gateway_success_witness :
  ∃ passphrase wallet addr auth events,
    getNetworkPassphrase Demo.world (networkType Demo.chain_with_auth) = Some passphrase
    ∧ getWallet Demo.world Demo.chain_with_auth
        (Demo.options "axelar_gateway" true None None) = Some wallet
    ∧ recorded_address Demo.world (Demo.options "axelar_gateway" true None None)
        Demo.chain_with_auth passphrase = Some addr
    ∧ (r ← record_of Demo.chain_with_auth "axelar_auth_verifier"; address r) = Some auth
    ∧ record_of
        (chain (processCommand Demo.world (Demo.options "axelar_gateway" true None None)
                  Demo.config (start Demo.chain_with_auth)).2)
        "axelar_gateway"
      = Some {| address := Some addr; deployer := Some (publicKey wallet);
                initializeArgs := Some [("authAddress", VString auth);
                                        ("owner", VString (publicKey wallet))] |}
    ∧ log (processCommand Demo.world (Demo.options "axelar_gateway" true None None)
             Demo.config (start Demo.chain_with_auth)).2
      = events
        ++ [EvBroadcast {| contractId := addr; method := "initialize";
                           args := [scvAddress auth; scvAddress (publicKey wallet)] |}
                        wallet
                        (chain (processCommand Demo.world
                                  (Demo.options "axelar_gateway" true None None)
                                  Demo.config (start Demo.chain_with_auth)).2)
                        "Initialized contract";
            EvPostDeploy "axelar_gateway";
            EvPrintInfo "Transferring ownership of auth contract to the gateway";
            EvBroadcast {| contractId := auth; method := "transfer_ownership";
                           args := [scvAddress addr] |}
                        wallet
                        (chain (processCommand Demo.world
                                  (Demo.options "axelar_gateway" true None None)
                                  Demo.config (start Demo.chain_with_auth)).2)
                        "Transferred ownership";
            EvPrintInfo "Post deployment setup executed"]
    ∧ Forall (λ ev, is_Broadcast ev = false) events.
Proof.
  apply (processCommand_gateway_success Demo.world
           (Demo.options "axelar_gateway" true None None) Demo.config Demo.chain_with_auth);
    reflexivity.
Defined.

(** *** How often a run calls out *)

Lemma filter_none (p : event → bool) evs :
  Forall (λ ev, p ev = false) evs → List.filter p evs = [].
Proof.
  induction 1 as [|ev evs Hev _ IH]; [done|]. cbn. by rewrite Hev.
Qed.

(** Replaces what the builder and the hook logged by what is known of it. *)
Ltac known_logs :=
  repeat match goal with
         | Hp : postDeployGateway _ _ _ _ = _ |- _ =>
             apply postDeployGateway_cases in Hp
               as [_ [(? & ? & _ & Hlog)|(? & ? & ? & ? & _ & _ & _ & _ & Hlog & _)]];
             cbn [chain log] in Hlog; apply app_inv_head in Hlog; subst
         end.

(** X15.  A run invokes the deploy binary at most once, broadcasts
    [initialize] at most once and [transfer_ownership] at most once, and
    broadcasts nothing else. *)
Theorem processCommand_calls_once ext options config c0 :
  (length (List.filter is_ExecSync
             (log (processCommand ext options config (start c0)).2)) ≤ 1)%nat
  ∧ (length (List.filter (is_Broadcast_of "initialize")
               (log (processCommand ext options config (start c0)).2)) ≤ 1)%nat
  ∧ (length (List.filter (is_Broadcast_of "transfer_ownership")
               (log (processCommand ext options config (start c0)).2)) ≤ 1)%nat
  ∧ length (List.filter is_Broadcast
              (log (processCommand ext options config (start c0)).2))
    = (length (List.filter (is_Broadcast_of "initialize")
                 (log (processCommand ext options config (start c0)).2))
       + length (List.filter (is_Broadcast_of "transfer_ownership")
                   (log (processCommand ext options config (start c0)).2)))%nat.
Proof.
  run_cases H. exec_using absorb_calls H; known_logs; cbn [log].
  all: rewrite ?List.filter_app.
  all: repeat match goal with
              | He : Forall (λ ev, ev = EvGetDomainSeparator) ?evs |- _ =>
                  rewrite !(filter_none _ evs)
                    by (eapply Forall_impl; [exact He|]; by intros ? ->);
                  clear He
              end.
  all: cbn [List.filter is_ExecSync is_Broadcast is_Broadcast_of method app length
              String.eqb Ascii.eqb Bool.eqb].
  all: lia.
Qed.

(** Case analysis on the membership of an event in a log, and its proof. *)
Ltac log_cases Hin :=
  repeat match type of Hin with
         | _ ∈ _ ++ _ => apply elem_of_app in Hin as [Hin|Hin]
         | _ ∈ [] => by apply elem_of_nil in Hin
         | _ ∈ [_] => apply list_elem_of_singleton in Hin
         | _ ∈ _ :: _ => apply elem_of_cons in Hin as [Hin|Hin]
         end.

Ltac in_log :=
  solve [ apply list_elem_of_here
        | apply list_elem_of_further; in_log
        | apply elem_of_app; right; in_log
        | apply elem_of_app; left; in_log ].

(** X16.  The post-deploy hook runs for the gateway alone, and only once
    the broadcast of [initialize] has been accepted: when the hook then
    fails, the gateway is initialized on chain and its record keeps the
    serialized arguments. *)
Theorem processCommand_hook_after_initialize ext options config c0 name :
  EvPostDeploy name ∈ log (processCommand ext options config (start c0)).2 →
  name = "axelar_gateway"
  ∧ Options.contractName options = "axelar_gateway"
  ∧ (∃ operation wallet c,
       EvBroadcast operation wallet c "Initialized contract"
       ∈ log (processCommand ext options config (start c0)).2
       ∧ method operation = "initialize"
       ∧ broadcast ext operation wallet c "Initialized contract" options = true)
  ∧ ∃ record serializedArgs,
      record_of (chain (processCommand ext options config (start c0)).2) "axelar_gateway"
      = Some record
      ∧ initializeArgs record = Some serializedArgs.
Proof.
  run_cases H. intros Hin.
  exec_using absorb_calls H; known_logs; cbn [log chain] in *.
  all: log_cases Hin; simplify_eq.
  all: try match goal with
           | Hm : _ ∈ ?evs, Hall : Forall _ ?evs |- _ =>
               rewrite Forall_forall in Hall; specialize (Hall _ Hm);
               cbn in Hall; congruence
           end.
  all: match goal with
       | Hn : Options.contractName _ = _ |- _ => rewrite Hn in *
       end.
  all: try match goal with
           | Hg : getInitializeArgs _ _ _ _ _ _ = _ |- _ => discriminate Hg
           end.
  all: split_and!; [done|done| |eexists _, _; split; [by registry|done]].
  all: match goal with
       | Hb : settled (broadcast _ ?operation ?wallet ?c _ _) = Some _ |- _ =>
           exists operation, wallet, c; split_and!;
           [in_log | done | by destruct (broadcast ext operation wallet c _ _)]
       end.
Qed.

Lemma processCommand_hook_after_initialize_witness :
  "axelar_gateway" = "axelar_gateway"
  ∧ Options.contractName (Demo.options "axelar_gateway" true None None) = "axelar_gateway"
  ∧ (∃ operation wallet c,
       EvBroadcast operation wallet c "Initialized contract"
       ∈ log (processCommand Demo.world (Demo.options "axelar_gateway" true None None)
                Demo.config (start Demo.chain_with_auth)).2
       ∧ method operation = "initialize"
       ∧ broadcast Demo.world operation wallet c "Initialized contract"
           (Demo.options "axelar_gateway" true None None) = true)
  ∧ ∃ record serializedArgs,
      record_of
        (chain (processCommand Demo.world (Demo.options "axelar_gateway" true None None)
                  Demo.config (start Demo.chain_with_auth)).2)
        "axelar_gateway"
      = Some record
      ∧ initializeArgs record = Some serializedArgs.
Proof.
  apply (processCommand_hook_after_initialize Demo.world
           (Demo.options "axelar_gateway" true None None) Demo.config Demo.chain_with_auth).
  vm_compute. do 8 apply list_elem_of_further. apply list_elem_of_here.
Defined.

(** ** [mainProcessor] *)

(** X17.  [mainProcessor] writes the config only when the config was loaded
    and the processor has returned normally: what it writes is the loaded
    config with its [stellar] entry as the processor left it, and the call
    then ends normally. *)
Theorem mainProcessor_writes_on_success store options processor saved :
  written (mainProcessor store options processor) = Some saved →
  outcome (mainProcessor store options processor) = Ok tt
  ∧ ∃ config s,
      loadConfig store (Options.env options) = Some config
      ∧ processor options (document config) (start (stellar config)) = (Ok tt, s)
      ∧ saved = {| document := document config; stellar := chain s |}
      ∧ saveConfig store saved (Options.env options) = true
      ∧ memory (mainProcessor store options processor) = Some s.
Proof.
  unfold mainProcessor.
  destruct (loadConfig store (Options.env options)) as [config|]; [|done].
  destruct (processor options (document config) (start (stellar config)))
    as [[[]|e] s] eqn:Hrun; [|done].
  cbn zeta.
  destruct (saveConfig store _ (Options.env options)) eqn:Hsave; [|done].
  cbn [written outcome memory]. intros [= <-]. split; [done|].
  exists config, s. by split_and!.
Qed.

Lemma mainProcessor_writes_on_success_witness :
  outcome (mainProcessor DemoStore.store (Demo.options "axelar_operators" true None None)
             (processCommand Demo.world)) = Ok tt
  ∧ ∃ config s,
      loadConfig DemoStore.store
        (Options.env (Demo.options "axelar_operators" true None None)) = Some config
      ∧ processCommand Demo.world (Demo.options "axelar_operators" true None None)
          (document config) (start (stellar config)) = (Ok tt, s)
      ∧ {| document := Demo.config;
           stellar := chain (processCommand Demo.world
                               (Demo.options "axelar_operators" true None None)
                               Demo.config (start Demo.chain_with_auth)).2 |}
        = {| document := document config; stellar := chain s |}
      ∧ saveConfig DemoStore.store
          {| document := Demo.config;
             stellar := chain (processCommand Demo.world
                                 (Demo.options "axelar_operators" true None None)
                                 Demo.config (start Demo.chain_with_auth)).2 |}
          (Options.env (Demo.options "axelar_operators" true None None)) = true
      ∧ memory (mainProcessor DemoStore.store
                  (Demo.options "axelar_operators" true None None)
                  (processCommand Demo.world)) = Some s.
Proof.
  apply (mainProcessor_writes_on_success DemoStore.store
           (Demo.options "axelar_operators" true None None) (processCommand Demo.world)
           {| document := Demo.config;
              stellar := chain (processCommand Demo.world
                                  (Demo.options "axelar_operators" true None None)
                                  Demo.config (start Demo.chain_with_auth)).2 |}).
  vm_compute. reflexivity.
Defined.

Lemma processCommand_Ok_resolved ext options config c0 :
  (processCommand ext options config (start c0)).1 = Ok tt →
  ∃ passphrase wallet addr,
    getNetworkPassphrase ext (networkType c0) = Some passphrase
    ∧ getWallet ext c0 options = Some wallet
    ∧ recorded_address ext options c0 passphrase = Some addr.
Proof.
  run_cases H. intros ->. unfold_M H.
  destruct (getNetworkPassphrase ext (networkType c0)) as [passphrase|] eqn:Hpass;
    unfold_M H; [|done].
  destruct (getWallet ext c0 options) as [wallet|] eqn:Hwallet; unfold_M H; [|done].
  exists passphrase, wallet. unfold recorded_address.
  destruct (truthy (Options.address options)) eqn:Htruthy; unfold_M H.
  { destruct (Options.address options) as [addr|]; [by exists addr|done]. }
  destruct c0 as [rpc0 net0 [cs|]]; cbn [rpc networkType contracts] in *; unfold_M H.
  all: destruct (execSync ext _) as [stdout|]; unfold_M H; [|done].
  all: by eexists.
Qed.

(** X18.  What a successful run of the script saves, for an identifier
    other than [__proto__]: the loaded document, with a [stellar] entry that
    has the endpoint and network type it was loaded with, the record it was
    loaded with under every other identifier and, under the identifier of
    the run, a record with the address of the run and the wallet as
    deployer. *)
Theorem mainProcessor_saves_record ext store options saved :
  Options.contractName options ≠ "__proto__" →
  written (mainProcessor store options (processCommand ext)) = Some saved →
  ∃ config passphrase wallet addr record,
    loadConfig store (Options.env options) = Some config
    ∧ document saved = document config
    ∧ getNetworkPassphrase ext (networkType (stellar config)) = Some passphrase
    ∧ getWallet ext (stellar config) options = Some wallet
    ∧ recorded_address ext options (stellar config) passphrase = Some addr
    ∧ record_of (stellar saved) (Options.contractName options) = Some record
    ∧ address record = Some addr
    ∧ deployer record = Some (publicKey wallet)
    ∧ rpc (stellar saved) = rpc (stellar config)
    ∧ networkType (stellar saved) = networkType (stellar config)
    ∧ ∀ other, other ≠ Options.contractName options →
               record_of (stellar saved) other = record_of (stellar config) other.
Proof.
  intros Hname. unfold mainProcessor.
  destruct (loadConfig store (Options.env options)) as [config|]; [|done].
  pose proof (processCommand_frame ext options (document config) (stellar config))
    as Hframe.
  pose proof (processCommand_keeps_endpoint ext options (document config) (stellar config))
    as [Hrpc Hnet].
  pose proof (processCommand_Ok_resolved ext options (document config) (stellar config))
    as Hresolved.
  destruct (processCommand ext options (document config) (start (stellar config)))
    as [[[]|e] s] eqn:Hrun; [|done].
  destruct (Hresolved eq_refl) as (passphrase & wallet & addr & Hpass & Hwallet & Haddr).
  pose proof (processCommand_recorded ext options (document config) (stellar config)
                passphrase wallet addr Hname Hpass Hwallet Haddr)
    as (record & Hrecord & Haddress & Hdeployer & _).
  rewrite Hrun in Hrecord. cbn [snd] in Hrecord, Hrpc, Hnet, Hframe.
  cbn zeta. destruct (saveConfig store _ _); [|done].
  cbn [written]. intros [= <-].
  exists config, passphrase, wallet, addr, record. cbn [document stellar].
  by split_and!.
Qed.

Lemma mainProcessor_saves_record_witness :
  ∃ config passphrase wallet addr record,
    loadConfig DemoStore.store
      (Options.env (Demo.options "axelar_operators" true None None)) = Some config
    ∧ document
        {| document := Demo.config;
           stellar := chain (processCommand Demo.world
                               (Demo.options "axelar_operators" true None None)
                               Demo.config (start Demo.chain_with_auth)).2 |}
      = document config
    ∧ getNetworkPassphrase Demo.world (networkType (stellar config)) = Some passphrase
    ∧ getWallet Demo.world (stellar config)
        (Demo.options "axelar_operators" true None None) = Some wallet
    ∧ recorded_address Demo.world (Demo.options "axelar_operators" true None None)
        (stellar config) passphrase = Some addr
    ∧ record_of
        (stellar
           {| document := Demo.config;
              stellar := chain (processCommand Demo.world
                                  (Demo.options "axelar_operators" true None None)
                                  Demo.config (start Demo.chain_with_auth)).2 |})
        (Options.contractName (Demo.options "axelar_operators" true None None))
      = Some record
    ∧ address record = Some addr
    ∧ deployer record = Some (publicKey wallet)
    ∧ rpc (stellar
             {| document := Demo.config;
                stellar := chain (processCommand Demo.world
                                    (Demo.options "axelar_operators" true None None)
                                    Demo.config (start Demo.chain_with_auth)).2 |})
      = rpc (stellar config)
    ∧ networkType
        (stellar
           {| document := Demo.config;
              stellar := chain (processCommand Demo.world
                                  (Demo.options "axelar_operators" true None None)
                                  Demo.config (start Demo.chain_with_auth)).2 |})
      = networkType (stellar config)
    ∧ ∀ other,
        other ≠ Options.contractName (Demo.options "axelar_operators" true None None) →
        record_of
          (stellar
             {| document := Demo.config;
                stellar := chain (processCommand Demo.world
                                    (Demo.options "axelar_operators" true None None)
                                    Demo.config (start Demo.chain_with_auth)).2 |})
          other
        = record_of (stellar config) other.
Proof.
  apply (mainProcessor_saves_record Demo.world DemoStore.store
           (Demo.options "axelar_operators" true None None)
           {| document := Demo.config;
              stellar := chain (processCommand Demo.world
                                  (Demo.options "axelar_operators" true None None)
                                  Demo.config (start Demo.chain_with_auth)).2 |});
    [discriminate|vm_compute; reflexivity].
Defined.

(** X19.  A deployment can be lost: when [processCommand], run for an
    identifier other than [__proto__], fails after the address is at hand
    (an unknown identifier, a missing dependency, a rejected broadcast),
    [mainProcessor] ends with that failure, the record with the address
    exists in memory only, and the config file is not written. *)
Theorem mainProcessor_loses_deployment ext store options config passphrase wallet addr e :
  Options.contractName options ≠ "__proto__" →
  loadConfig store (Options.env options) = Some config →
  getNetworkPassphrase ext (networkType (stellar config)) = Some passphrase →
  getWallet ext (stellar config) options = Some wallet →
  recorded_address ext options (stellar config) passphrase = Some addr →
  (processCommand ext options (document config) (start (stellar config))).1 = Throw e →
  outcome (mainProcessor store options (processCommand ext)) = Throw e
  ∧ written (mainProcessor store options (processCommand ext)) = None
  ∧ ∃ s record,
      memory (mainProcessor store options (processCommand ext)) = Some s
      ∧ record_of (chain s) (Options.contractName options) = Some record
      ∧ address record = Some addr
      ∧ deployer record = Some (publicKey wallet).
Proof.
  intros Hname Hload Hpass Hwallet Haddr Hrun.
  destruct (processCommand_recorded ext options (document config) (stellar config)
              passphrase wallet addr Hname Hpass Hwallet Haddr)
    as (record & Hrecord & Haddress & Hdeployer & _).
  unfold mainProcessor. rewrite Hload.
  destruct (processCommand ext options (document config) (start (stellar config)))
    as [r s]. cbn [fst snd] in *. subst r.
  cbn [outcome written memory]. split_and!; [done|done|]. by exists s, record.
Qed.

Lemma mainProcessor_loses_deployment_witness :
  outcome (mainProcessor DemoStore.store (Demo.options "axelar_gateway" true None None)
             (processCommand Demo.world_broadcast_fails)) = Throw RemoteCallFailed
  ∧ written (mainProcessor DemoStore.store (Demo.options "axelar_gateway" true None None)
               (processCommand Demo.world_broadcast_fails)) = None
  ∧ ∃ s record,
      memory (mainProcessor DemoStore.store (Demo.options "axelar_gateway" true None None)
                (processCommand Demo.world_broadcast_fails)) = Some s
      ∧ record_of (chain s)
          (Options.contractName (Demo.options "axelar_gateway" true None None))
        = Some record
      ∧ address record = Some Demo.gateway_id
      ∧ deployer record = Some (publicKey Demo.wallet).
Proof.
  apply (mainProcessor_loses_deployment Demo.world_broadcast_fails DemoStore.store
           (Demo.options "axelar_gateway" true None None)
           {| document := Demo.config; stellar := Demo.chain_with_auth |}
           "Test SDF Network ; September 2015" Demo.wallet Demo.gateway_id
           RemoteCallFailed);
    [discriminate|reflexivity..].
Defined.

(** ** The identifier [__proto__] *)

(** X21.  A run for the identifier [__proto__], on a registry that has no
    own property of that name, records nothing: once the passphrase and the
    wallet are resolved and an address is at hand, every own property of the
    registry is what it was, and the record with the address and the
    deployer has become the prototype of the registry, which the config file
    does not hold.  The run succeeds without [--initialize] and fails with
    [UnknownContract] with it. *)
Theorem processCommand_proto_identifier ext options config c0 passphrase wallet addr :
  Options.contractName options = "__proto__" →
  record_of c0 "__proto__" = None →
  getNetworkPassphrase ext (networkType c0) = Some passphrase →
  getWallet ext c0 options = Some wallet →
  recorded_address ext options c0 passphrase = Some addr →
  (∀ name, record_of (chain (processCommand ext options config (start c0)).2) name
           = record_of c0 name)
  ∧ prototype (processCommand ext options config (start c0)).2
    = Some {| address := Some addr; deployer := Some (publicKey wallet);
              initializeArgs := None |}
  ∧ (processCommand ext options config (start c0)).1
    = if Options.initialize options then Throw (UnknownContract "__proto__") else Ok tt.
Proof.
  intros Hname Hown Hpass Hwallet Haddr. run_cases H.
  rewrite Hname in H. to_recording H Hpass Hwallet Haddr.
  all: destruct c0 as [rpc0 net0 [cs|]]; cbn [rpc networkType contracts] in *;
    try (rewrite Hexec in H).
  all: unfold record_of in Hown; cbn [contracts mbind option_bind] in Hown.
  all: unfold_M H; rewrite ?lookup_empty, ?Hown in H.
  all: exec_using ltac:(fun H => rewrite getInitializeArgs_unsupported in H
                                   by (unfold supported_names; set_solver)) H.
  all: cbn [chain prototype]; split_and!; try done.
  all: intros name; unfold record_of; cbn [contracts mbind option_bind];
    by rewrite ?lookup_empty.
Qed.

Lemma processCommand_proto_identifier_witness :
  (∀ name,
     record_of (chain (processCommand Demo.world (Demo.options "__proto__" false None None)
                         Demo.config (start Demo.chain_with_auth)).2) name
     = record_of Demo.chain_with_auth name)
  ∧ prototype (processCommand Demo.world (Demo.options "__proto__" false None None)
                 Demo.config (start Demo.chain_with_auth)).2
    = Some {| address := Some Demo.gateway_id; deployer := Some (publicKey Demo.wallet);
              initializeArgs := None |}
  ∧ (processCommand Demo.world (Demo.options "__proto__" false None None)
       Demo.config (start Demo.chain_with_auth)).1
    = if Options.initialize (Demo.options "__proto__" false None None)
      then Throw (UnknownContract "__proto__") else Ok tt.
Proof.
  apply (processCommand_proto_identifier Demo.world
           (Demo.options "__proto__" false None None) Demo.config Demo.chain_with_auth
           "Test SDF Network ; September 2015" Demo.wallet Demo.gateway_id);
    reflexivity.
Defined.

(** The run of the witness through [mainProcessor]: it ends normally, and
    the config it writes is, entry for entry, the config it loaded. *)
Example proto_identifier_saves_nothing :
  outcome (mainProcessor DemoStore.store (Demo.options "__proto__" false None None)
             (processCommand Demo.world)) = Ok tt
  ∧ written (mainProcessor DemoStore.store (Demo.options "__proto__" false None None)
               (processCommand Demo.world))
    = Some {| document := Demo.config; stellar := Demo.chain_with_auth |}.
Proof. split; by vm_compute. Qed.
